(** * The options panel of the console UI

    A shallow embedding of [mitmproxy/tools/console/options.py]: the row
    widget [OptionItem], the list walker [OptionListWalker], the key
    dispatcher [OptionsList.keypress], and the properties of the panel
    that follow from the code.

    Python objects are modelled by records, Python exceptions by an
    error monad over the state of the panel, and the collaborators that
    live outside the file (the option manager, urwid's list box and edit
    widget, the wrapped layout of [pprint]) by section variables. *)

From Stdlib Require Import ZArith String Ascii List DecimalString Lia OrderedTypeEx.
From stdpp Require Import gmap strings list sorting.

Open Scope string_scope.
Open Scope Z_scope.

(** ** Python values and the built-ins the panel uses *)

Module Py.

(** The exceptions that can leave the code of the panel. *)
Inductive exn : Type :=
| IndexError
| KeyError (key : string)
| ValueError
| AttributeError
| NotImplementedError
| OptionsError (msg : string).

(** The result of a Python call: a value, or a raised exception. *)
Inductive result (A : Type) : Type :=
| Ok (a : A)
| Raise (e : exn).
Arguments Ok {A} a.
Arguments Raise {A} e.

(** The values an option can hold.  A Python [str] is a sequence of code
    points; a [string] here is read as the code points below 256. *)
Inductive value : Type :=
| VNone
| VBool (b : bool)
| VInt (z : Z)
| VStr (s : string)
| VSeq (l : list string).

(** Python truthiness, as [if val] and [not val] test it. *)
Definition truthy (v : value) : bool :=
  match v with
  | VNone => false
  | VBool b => b
  | VInt z => negb (z =? 0)
  | VStr s => negb (String.eqb s "")
  | VSeq l => match l with [] => false | _ => true end
  end.

(** [==] on values; [True == 1] and [False == 0] hold in Python. *)
Definition value_eqb (v w : value) : bool :=
  match v, w with
  | VNone, VNone => true
  | VBool a, VBool b => Bool.eqb a b
  | VBool a, VInt z | VInt z, VBool a => (if a then 1 else 0) =? z
  | VInt a, VInt b => a =? b
  | VStr a, VStr b => String.eqb a b
  | VSeq a, VSeq b => bool_decide (a = b)
  | _, _ => false
  end.

(** [l[i]] on a list: a negative index counts from the end. *)
Definition getitem {A : Type} (l : list A) (i : Z) : result A :=
  let n := Z.of_nat (length l) in
  let j := if i <? 0 then i + n else i in
  if (j <? 0) || (n <=? j) then Raise IndexError
  else match l !! Z.to_nat j with
       | Some x => Ok x
       | None => Raise IndexError
       end.

(** [max(len(i) for i in l)]: [ValueError] on an empty sequence. *)
Definition max_len (l : list string) : result nat :=
  match l with
  | [] => Raise ValueError
  | _ => Ok (foldr (fun s m => Nat.max (String.length s) m) 0%nat l)
  end.

(** [s.ljust(width)]: pad with spaces on the right. *)
Fixpoint spaces (n : nat) : string :=
  match n with
  | O => ""
  | S n' => String " " (spaces n')
  end.

Definition ljust (s : string) (width : nat) : string :=
  s ++ spaces (width - String.length s).

(** *** [repr] and [str] *)

Definition hex_digit (n : N) : ascii :=
  ascii_of_N (if (n <? 10)%N then 48 + n else 87 + n).

(** Code points below 256 that [str.isprintable] accepts. *)
Definition printable (c : ascii) : bool :=
  let n := N_of_ascii c in
  ((32 <=? n) && (n <? 127) || (161 <=? n) && negb (n =? 173))%N.

Fixpoint contains_char (c : ascii) (s : string) : bool :=
  match s with
  | EmptyString => false
  | String d s' => Ascii.eqb c d || contains_char c s'
  end.

Definition squote : ascii := "'"%char.
Definition dquote : ascii := ascii_of_N 34.
Definition backslash : ascii := "\"%char.
Definition newline : ascii := ascii_of_N 10.

Definition repr_char (quote c : ascii) : string :=
  let n := N_of_ascii c in
  if Ascii.eqb c quote || Ascii.eqb c backslash then String backslash (String c "")
  else if (n =? 9)%N then String backslash "t"
  else if (n =? 10)%N then String backslash "n"
  else if (n =? 13)%N then String backslash "r"
  else if printable c then String c ""
  else String backslash
         (String "x" (String (hex_digit (n / 16)) (String (hex_digit (n mod 16)) ""))).

Fixpoint repr_chars (quote : ascii) (s : string) : string :=
  match s with
  | EmptyString => ""
  | String c s' => repr_char quote c ++ repr_chars quote s'
  end.

(** [repr(s)]: single quotes, unless the text has one and no double quote. *)
Definition repr_str (s : string) : string :=
  let quote :=
    if contains_char squote s && negb (contains_char dquote s)
    then dquote else squote in
  String quote (repr_chars quote s ++ String quote "").

Fixpoint join (sep : string) (l : list string) : string :=
  match l with
  | [] => ""
  | [x] => x
  | x :: l' => x ++ sep ++ join sep l'
  end.

(** [repr(l)] for a list of strings. *)
Definition repr_list (l : list string) : string :=
  "[" ++ join ", " (map repr_str l) ++ "]".

(** [str(v)]. *)
Definition str (v : value) : string :=
  match v with
  | VNone => "None"
  | VBool true => "True"
  | VBool false => "False"
  | VInt z => NilZero.string_of_int (Z.to_int z)
  | VStr s => s
  | VSeq l => repr_list l
  end.

Definition repr (v : value) : string :=
  match v with
  | VStr s => repr_str s
  | _ => str v
  end.

(** A text that spans more than one line. *)
Definition multi_line (s : string) : bool := contains_char newline s.

End Py.
Export Py.

(** ** Options and the option manager's store *)

(** The type an option declares ([opt.typespec]); [TOther] stands for
    any annotation besides the six the panel knows how to edit. *)
Inductive typespec : Type :=
| TBool
| TStr
| TInt
| TOptStr
| TOptInt
| TSeqStr
| TOther (annotation : string).

Global Instance typespec_eq_dec : EqDecision typespec.
Proof. solve_decision. Defined.

(** Modelled from the spec: the option object of the option manager
    ([optmanager._Option], not part of this file), with the attributes
    the spec's data model lists.  [opt_value] is what [opt.current()]
    returns. *)
Record Opt : Type := {
  opt_name : string;
  opt_typespec : typespec;
  opt_default : value;
  opt_value : value;
  opt_choices : option (list string);
  opt_help : string
}.

Definition current (o : Opt) : value := opt_value o.

(** [if opt.choices]: neither [None] nor empty. *)
Definition has_choices (o : Opt) : bool :=
  match opt_choices o with
  | Some (_ :: _) => true
  | _ => false
  end.

(** [master.options._options]: the option objects by name. *)
Abbreviation Options := (gmap string Opt).

(** What a call into the option manager leaves behind: the store after
    the call, whether the [changed] signal was sent during it, and the
    exception the call ended with, if any. *)
Record store_reply : Type := {
  reply_options : Options;
  reply_changed : bool;
  reply_error : option exn
}.

(** Lexicographic order on names, by code point. *)
Definition str_le (a b : string) : Prop := String.leb a b = true.

Global Instance str_le_dec a b : Decision (str_le a b).
Proof. unfold str_le. apply _. Defined.

(** [sorted(l)] on a list of names. *)
Definition sorted (l : list string) : list string := merge_sort str_le l.

(** [options.keys()]; the order is immaterial, every use sorts it. *)
Definition keys (o : Options) : list string := elements (dom o).

(** Modelled from the spec: [options.has_changed(name)] of the option
    manager, the current value differs from the default;
    [KeyError] for an unknown name. *)
Definition has_changed (o : Options) (name : string) : result bool :=
  match o !! name with
  | Some opt => Ok (negb (value_eqb (current opt) (opt_default opt)))
  | None => Raise (KeyError name)
  end.

(** ** Widgets *)

(** The value cell of a row: [urwid.Edit] while editing, else the padded
    and styled [urwid.Text]. *)
Inductive valw : Type :=
| Edit (edit_text : string) (edit_pos : nat)
| Text (style : string) (text : string).

(** [urwid.Columns] of a row: the name column and the value cell. *)
Record Columns : Type := {
  name_width : nat;
  name_text : string;
  value_cell : valw
}.

(** A row.  [item_opt] is the option object the row refers to, as the
    row found it when it was built: its name, typespec, choices and help
    never change, and where the code reads its value again later
    ([foc.opt.current()]) the model reads it in the store, see
    [opt_current].  The walker a row points back to is the one walker of
    the panel. *)
Record OptionItem : Type := {
  item_opt : Opt;
  focused : bool;
  namewidth : nat;
  item_editing : bool;
  item_w : Columns
}.

(** The overlays the panel asks [master.overlay] to open.  The setter
    callback of the chooser is bound to the option name it carries. *)
Inductive Overlay : Type :=
| Chooser (name : string) (choices : option (list string)) (cur : value)
| OptionsOverlay (name : string) (cur : value) (height : Z).

Definition HELP_HEIGHT : Z := 5.

(** ** The state of the panel *)

(** The walker's attributes, the store it is bound to, and what the
    panel sends out: the help pane's text, the status messages, the
    overlays, and the number of [_modified()] notifications.  (The
    attribute [focusobj] that [__init__] sets to [None] is never read
    and is left out; the focus object is [focus_obj].) *)
Record World : Type := {
  options : Options;
  opts : list string;
  maxlen : nat;
  index : Z;
  editing : bool;
  focus_obj : option OptionItem;
  help_text : string;
  status_messages : list string;
  overlays : list Overlay;
  modified : nat
}.

Definition set_options (o : Options) (w : World) : World :=
  {| options := o; opts := opts w; maxlen := maxlen w; index := index w;
     editing := editing w; focus_obj := focus_obj w; help_text := help_text w;
     status_messages := status_messages w; overlays := overlays w;
     modified := modified w |}.

Definition set_opts (l : list string) (w : World) : World :=
  {| options := options w; opts := l; maxlen := maxlen w; index := index w;
     editing := editing w; focus_obj := focus_obj w; help_text := help_text w;
     status_messages := status_messages w; overlays := overlays w;
     modified := modified w |}.

Definition set_maxlen (n : nat) (w : World) : World :=
  {| options := options w; opts := opts w; maxlen := n; index := index w;
     editing := editing w; focus_obj := focus_obj w; help_text := help_text w;
     status_messages := status_messages w; overlays := overlays w;
     modified := modified w |}.

Definition set_index (i : Z) (w : World) : World :=
  {| options := options w; opts := opts w; maxlen := maxlen w; index := i;
     editing := editing w; focus_obj := focus_obj w; help_text := help_text w;
     status_messages := status_messages w; overlays := overlays w;
     modified := modified w |}.

Definition set_editing (b : bool) (w : World) : World :=
  {| options := options w; opts := opts w; maxlen := maxlen w; index := index w;
     editing := b; focus_obj := focus_obj w; help_text := help_text w;
     status_messages := status_messages w; overlays := overlays w;
     modified := modified w |}.

Definition set_focus_obj (f : option OptionItem) (w : World) : World :=
  {| options := options w; opts := opts w; maxlen := maxlen w; index := index w;
     editing := editing w; focus_obj := f; help_text := help_text w;
     status_messages := status_messages w; overlays := overlays w;
     modified := modified w |}.

Definition set_help_text (t : string) (w : World) : World :=
  {| options := options w; opts := opts w; maxlen := maxlen w; index := index w;
     editing := editing w; focus_obj := focus_obj w; help_text := t;
     status_messages := status_messages w; overlays := overlays w;
     modified := modified w |}.

Definition add_status_message (m : string) (w : World) : World :=
  {| options := options w; opts := opts w; maxlen := maxlen w; index := index w;
     editing := editing w; focus_obj := focus_obj w; help_text := help_text w;
     status_messages := status_messages w ++ [m]; overlays := overlays w;
     modified := modified w |}.

Definition add_overlay (o : Overlay) (w : World) : World :=
  {| options := options w; opts := opts w; maxlen := maxlen w; index := index w;
     editing := editing w; focus_obj := focus_obj w; help_text := help_text w;
     status_messages := status_messages w; overlays := overlays w ++ [o];
     modified := modified w |}.

Definition bump_modified (w : World) : World :=
  {| options := options w; opts := opts w; maxlen := maxlen w; index := index w;
     editing := editing w; focus_obj := focus_obj w; help_text := help_text w;
     status_messages := status_messages w; overlays := overlays w;
     modified := S (modified w) |}.

(** ** The monad of the panel's methods: state, and exceptions that keep
    the state reached when they were raised *)

Definition M (A : Type) : Type := World -> result A * World.

Global Instance M_ret : MRet M := fun A a w => (Ok a, w).

Global Instance M_bind : MBind M := fun A B f m w =>
  match m w with
  | (Ok a, w') => f a w'
  | (Raise e, w') => (Raise e, w')
  end.

Definition raise {A : Type} (e : exn) : M A := fun w => (Raise e, w).

Definition gets {A : Type} (f : World -> A) : M A := fun w => (Ok (f w), w).

Definition modify (f : World -> World) : M unit := fun w => (Ok tt, f w).

Definition lift {A : Type} (r : result A) : M A := fun w => (r, w).

(** [try: body except exceptions.OptionsError as v: handler(str(v))]. *)
Definition try_except_OptionsError (body : M unit) (handler : string -> M unit) : M unit :=
  fun w =>
    match body w with
    | (Raise (OptionsError msg), w') => handler msg w'
    | r => r
    end.

(** Unfold the monad and compute. *)
Ltac run :=
  unfold mbind, M_bind, mret, M_ret, gets, modify, raise, lift in *; simpl in *.

(** Split the conjunctions of the goal, and nothing under a binder. *)
Ltac split_all := repeat match goal with |- _ /\ _ => split end.

(** ** A small option manager and terminal, for running the panel *)

Module Sample.

(** Modelled from the spec: the layout of a sequence of strings that
    does not fit on one line, one entry per line. *)
Definition pformat_wrapped (v : value) : string :=
  match v with
  | VSeq l => "[" ++ join (String "," (String newline " ")) (map repr_str l) ++ "]"
  | _ => repr v
  end.

(** The text before and after the first [=]. *)
Fixpoint split_eq (s : string) : option (string * string) :=
  match s with
  | EmptyString => None
  | String c s' =>
      if Ascii.eqb c "="%char then Some ("", s')
      else match split_eq s' with
           | Some (a, b) => Some (String c a, b)
           | None => None
           end
  end.

Definition with_value (o : Opt) (v : value) : Opt :=
  {| opt_name := opt_name o; opt_typespec := opt_typespec o;
     opt_default := opt_default o; opt_value := v;
     opt_choices := opt_choices o; opt_help := opt_help o |}.

Definition rejected (o : Options) (msg : string) : store_reply :=
  {| reply_options := o; reply_changed := false;
     reply_error := Some (OptionsError msg) |}.

Definition updated (o : Options) (name : string) (opt : Opt) (v : value) : store_reply :=
  {| reply_options := <[name := with_value opt v]> o; reply_changed := true;
     reply_error := None |}.

(** Modelled from the spec: [options.set("name=value")], which parses
    the text by the option's type and fails with a validation error on
    malformed input, leaving the store as it was. *)
Definition options_set (o : Options) (spec : string) : store_reply :=
  match split_eq spec with
  | None => rejected o ("Invalid option spec: " ++ spec)
  | Some (name, txt) =>
      match o !! name with
      | None => rejected o ("No such option: " ++ name)
      | Some opt =>
          match opt_typespec opt with
          | TStr | TOptStr => updated o name opt (VStr txt)
          | TInt | TOptInt =>
              match NilZero.int_of_string txt with
              | Some d => updated o name opt (VInt (Z.of_int d))
              | None => rejected o ("Not an integer: " ++ txt)
              end
          | _ => rejected o ("Unsupported option type: " ++ name)
          end
      end
  end.

(** Modelled from the spec: [options.toggler(name)()], which flips a
    boolean option. *)
Definition options_toggler (o : Options) (name : string) : store_reply :=
  match o !! name with
  | Some opt =>
      match opt_typespec opt with
      | TBool => updated o name opt (VBool (negb (truthy (current opt))))
      | _ => {| reply_options := o; reply_changed := false;
                reply_error := Some ValueError |}
      end
  | None => {| reply_options := o; reply_changed := false;
               reply_error := Some (KeyError name) |}
  end.

(** An edit widget that appends the characters typed and deletes the
    last one on backspace. *)
Fixpoint drop_last (s : string) : string :=
  match s with
  | EmptyString => ""
  | String c EmptyString => ""
  | String c s' => String c (drop_last s')
  end.

Definition edit_keypress (t : string) (p : nat) (key : string) : string * nat :=
  if String.eqb key "backspace" then
    let t' := drop_last t in (t', String.length t')
  else if (String.length key =? 1)%nat then
    let t' := t ++ key in (t', String.length t')
  else (t, p).

(** A list box that moves the focus one row up or down. *)
Definition listbox_move (n : nat) (focus : Z) (key : string) : option Z :=
  if String.eqb key "down" then
    if focus + 1 <? Z.of_nat n then Some (focus + 1) else None
  else if String.eqb key "up" then
    if 0 <=? focus - 1 then Some (focus - 1) else None
  else None.

Definition timeout : Opt :=
  {| opt_name := "timeout"; opt_typespec := TInt; opt_default := VInt 5;
     opt_value := VInt 5; opt_choices := None; opt_help := "Seconds to wait." |}.

Definition verbose : Opt :=
  {| opt_name := "verbose"; opt_typespec := TBool; opt_default := VBool false;
     opt_value := VBool false; opt_choices := None; opt_help := "Log more." |}.

Definition ignore_hosts : Opt :=
  {| opt_name := "ignore_hosts"; opt_typespec := TSeqStr; opt_default := VSeq [];
     opt_value := VSeq ["a"]; opt_choices := None; opt_help := "Hosts to ignore." |}.

Definition console_layout : Opt :=
  {| opt_name := "console_layout"; opt_typespec := TStr;
     opt_default := VStr "single"; opt_value := VStr "single";
     opt_choices := Some ["single"; "vertical"; "horizontal"];
     opt_help := "Console layout." |}.

Definition stream_large_bodies : Opt :=
  {| opt_name := "stream_large_bodies"; opt_typespec := TOther "float";
     opt_default := VNone; opt_value := VNone; opt_choices := None;
     opt_help := "Stream bodies over this size." |}.

(** A boolean option that also declares choices. *)
Definition strict : Opt :=
  {| opt_name := "strict"; opt_typespec := TBool; opt_default := VBool false;
     opt_value := VBool false; opt_choices := Some ["true"; "false"];
     opt_help := "Be strict." |}.

Definition store_of (l : list Opt) : Options :=
  list_to_map (map (fun o => (opt_name o, o)) l).

(** The store of the spec's scenario. *)
Definition store2 : Options := store_of [timeout; verbose].

Definition store1 : Options := store_of [timeout].

Definition store6 : Options :=
  store_of [timeout; verbose; ignore_hosts; console_layout; stream_large_bodies; strict].

Definition item (o : Opt) (is_focused : bool) (width : nat) (ed : bool) (cell : valw)
  : OptionItem :=
  {| item_opt := o; focused := is_focused; namewidth := width; item_editing := ed;
     item_w := {| name_width := width; name_text := ljust (opt_name o) width;
                  value_cell := cell |} |}.

(** The panel of the spec's scenario after start-up: two options, the
    focus on the first. *)
Definition world2 : World :=
  {| options := store2; opts := ["timeout"; "verbose"]; maxlen := 7%nat; index := 0;
     editing := false;
     focus_obj := Some (item timeout true 7 false (Text "option_selected" "5"));
     help_text := "Seconds to wait."; status_messages := []; overlays := [];
     modified := 1%nat |}.

(** The same panel with the first row being edited, the buffer at "5". *)
Definition world_editing : World :=
  {| options := store2; opts := ["timeout"; "verbose"]; maxlen := 7%nat; index := 0;
     editing := true;
     focus_obj := Some (item timeout true 7 true (Edit "5" 1));
     help_text := "Seconds to wait."; status_messages := []; overlays := [];
     modified := 3%nat |}.

(** The focus on the last of two rows, and a store that has lost the
    option of that row since. *)
Definition world_shrunk : World :=
  {| options := store1; opts := ["timeout"; "verbose"]; maxlen := 7%nat; index := 1;
     editing := false;
     focus_obj := Some (item verbose true 7 false (Text "option_selected" "false"));
     help_text := "Log more."; status_messages := []; overlays := [];
     modified := 3%nat |}.

(** An edit in progress on the first row, and a store that has lost the
    second option since. *)
Definition world_editing_shrunk : World :=
  {| options := store1; opts := ["timeout"; "verbose"]; maxlen := 7%nat; index := 0;
     editing := true;
     focus_obj := Some (item timeout true 7 true (Edit "5" 1));
     help_text := "Seconds to wait."; status_messages := []; overlays := [];
     modified := 3%nat |}.

(** The first row being edited, the buffer changed to "5x". *)
Definition world_editing_5x : World :=
  {| options := store2; opts := ["timeout"; "verbose"]; maxlen := 7%nat; index := 0;
     editing := true;
     focus_obj := Some (item timeout true 7 true (Edit "5x" 2));
     help_text := "Seconds to wait."; status_messages := []; overlays := [];
     modified := 3%nat |}.

Definition names6 : list string :=
  ["console_layout"; "ignore_hosts"; "stream_large_bodies"; "strict"; "timeout";
   "verbose"].

(** A panel of six options, the focus on the one of an unknown type. *)
Definition world_float : World :=
  {| options := store6; opts := names6; maxlen := 19%nat; index := 2;
     editing := false;
     focus_obj := Some (item stream_large_bodies true 19 false (Text "option_selected" ""));
     help_text := "Stream bodies over this size."; status_messages := [];
     overlays := []; modified := 3%nat |}.

(** The same panel, the focus on the boolean option that has choices. *)
Definition world_strict : World :=
  {| options := store6; opts := names6; maxlen := 19%nat; index := 3;
     editing := false;
     focus_obj := Some (item strict true 19 false (Text "option_selected" "false"));
     help_text := "Be strict."; status_messages := []; overlays := [];
     modified := 4%nat |}.

(** The same panel, the focus on the option with choices. *)
Definition world_layout : World :=
  {| options := store6; opts := names6; maxlen := 19%nat; index := 0;
     editing := false;
     focus_obj := Some (item console_layout true 19 false (Text "option_selected" "single"));
     help_text := "Console layout."; status_messages := []; overlays := [];
     modified := 1%nat |}.

End Sample.

(** Further sample data: a store that fails in its own way, the panes'
    collaborators, and one more state of the six-option panel. *)
Module Corner.

(** An option manager whose [set] ends with an exception of its own. *)
Definition broken_set (o : Options) (spec : string) : store_reply :=
  {| reply_options := o; reply_changed := false; reply_error := Some (KeyError spec) |}.

(** A list box that hands the key [None] back, and a help pane that
    handles no key. *)
Definition listbox_keypress_none : M (option string) := fun w => (Ok None, w).

Definition help_keypress (key : option string) : M (option string) :=
  fun w => (Ok key, w).

(** The six-option panel, the focus on the sequence option. *)
Definition world_hosts : World :=
  {| options := Sample.store6; opts := Sample.names6; maxlen := 19%nat; index := 1;
     editing := false;
     focus_obj := Some (Sample.item Sample.ignore_hosts true 19 false
                          (Text "option_active_selected" "['a']"));
     help_text := "Hosts to ignore."; status_messages := []; overlays := [];
     modified := 2%nat |}.

End Corner.

(** ** The panel *)

Section Panel.

(** The layout [pprint] gives a value whose [repr] does not fit on one
    line of 80 columns (Python's standard library). *)
Variable pformat_wrapped : value -> string.

(** Modelled from the spec: [options.set(spec)] of the option manager,
    which fails with a validation error on malformed input. *)
Variable options_set : Options -> string -> store_reply.

(** Modelled from the spec: [options.toggler(name)()] of the option
    manager, which flips a boolean option. *)
Variable options_toggler : Options -> string -> store_reply.

(** [urwid.Edit.keypress]: the text and cursor after a key. *)
Variable edit_keypress : string -> nat -> string -> string * nat.

(** The cursor movement of [urwid.ListBox.keypress]: the position a key
    the focused row left unhandled moves the focus to, if any, given the
    number of rows and the focused position. *)
Variable listbox_move : nat -> Z -> string -> option Z.

(** [pprint.pformat(val, indent=1)], width 80. *)
Definition pformat (v : value) : string :=
  let rep := repr v in
  if (String.length rep <=? 80)%nat then rep
  else match v with
       | VStr _ | VSeq _ => pformat_wrapped v
       | _ => rep
       end.

(** *** OptionItem *)

(** The display text of [OptionItem.get_widget]. *)
Definition displayval (o : Opt) : string :=
  let val := current o in
  if decide (opt_typespec o = TBool) then
    if truthy val then "true" else "false"
  else if negb (truthy val) then ""
  else if decide (opt_typespec o = TSeqStr) then pformat val
  else str val.

Definition valstyle (is_focused changed : bool) : string :=
  if is_focused then
    if changed then "option_active_selected" else "option_selected"
  else
    if changed then "option_active" else "text".

Definition get_widget (o : Opt) (is_focused : bool) (width : nat) (is_editing : bool)
  : M Columns :=
  let dv := displayval o in
  changed ← (fun w => (has_changed (options w) (opt_name o), w));
  let style := valstyle is_focused changed in
  let cell := if is_editing then Edit dv (String.length dv) else Text style dv in
  mret {| name_width := width;
          name_text := ljust (opt_name o) width;
          value_cell := cell |}.

(** [OptionItem(walker, opt, focused, namewidth, editing)]. *)
Definition OptionItem_init (o : Opt) (is_focused : bool) (width : nat) (is_editing : bool)
  : M OptionItem :=
  cols ← get_widget o is_focused width is_editing;
  mret {| item_opt := o; focused := is_focused; namewidth := width;
          item_editing := is_editing; item_w := cols |}.

Definition OptionItem_get_edit_text (it : OptionItem) : M string :=
  match value_cell (item_w it) with
  | Edit t _ => mret t
  | Text _ _ => raise AttributeError
  end.

(** [OptionItem.keypress]: [Some it'] is the row after the key went to
    its edit widget (the method returns [None]); [None] is the key
    handed back unhandled. *)
Definition OptionItem_keypress (it : OptionItem) (key : string) : M (option OptionItem) :=
  if item_editing it then
    match value_cell (item_w it) with
    | Edit t p =>
        let '(t', p') := edit_keypress t p key in
        mret (Some {| item_opt := item_opt it; focused := focused it;
                      namewidth := namewidth it; item_editing := item_editing it;
                      item_w := {| name_width := name_width (item_w it);
                                   name_text := name_text (item_w it);
                                   value_cell := Edit t' p' |} |})
    | Text _ _ => raise AttributeError
    end
  else mret None.

(** *** OptionListWalker *)

Definition _modified : M unit := modify bump_modified.

(** [OptionHelp.update_help_text]. *)
Definition update_help_text (txt : string) : M unit := modify (set_help_text txt).

(** [self.master.options._options[name]]. *)
Definition options_getitem (name : string) : M Opt :=
  fun w => match options w !! name with
           | Some o => (Ok o, w)
           | None => (Raise (KeyError name), w)
           end.

Definition opts_getitem (pos : Z) : M string :=
  fun w => (getitem (opts w) pos, w).

Definition _get (pos : Z) (is_editing : bool) : M OptionItem :=
  name ← opts_getitem pos;
  opt ← options_getitem name;
  idx ← gets index;
  width ← gets maxlen;
  OptionItem_init opt (bool_decide (pos = idx)) width is_editing.

Definition get_focus : M (option OptionItem * Z) :=
  f ← gets focus_obj;
  i ← gets index;
  mret (f, i).

Definition set_focus (i : Z) : M unit :=
  modify (set_editing false);;
  name ← opts_getitem i;
  opt ← options_getitem name;
  modify (set_index i);;
  idx ← gets index;
  ed ← gets editing;
  it ← _get idx ed;
  modify (set_focus_obj (Some it));;
  update_help_text (opt_help opt);;
  _modified.

Definition sig_mod : M unit :=
  o ← gets options;
  modify (set_opts (sorted (keys o)));;
  l ← gets opts;
  n ← lift (max_len l);
  modify (set_maxlen n);;
  _modified;;
  idx ← gets index;
  set_focus idx.

Definition start_editing : M unit :=
  modify (set_editing true);;
  idx ← gets index;
  it ← _get idx true;
  modify (set_focus_obj (Some it));;
  _modified.

Definition stop_editing : M unit :=
  modify (set_editing false);;
  idx ← gets index;
  it ← _get idx false;
  modify (set_focus_obj (Some it));;
  idx' ← gets index;
  set_focus idx';;
  _modified.

Definition get_edit_text : M string :=
  f ← gets focus_obj;
  match f with
  | Some it => OptionItem_get_edit_text it
  | None => raise AttributeError
  end.

(** [(None, None)] is [None]; a row and its position is [Some]. *)
Definition get_next (pos : Z) : M (option (OptionItem * Z)) :=
  l ← gets opts;
  if Z.of_nat (length l) - 1 <=? pos then mret None
  else
    let pos := pos + 1 in
    it ← _get pos false;
    mret (Some (it, pos)).

Definition get_prev (pos : Z) : M (option (OptionItem * Z)) :=
  let pos := pos - 1 in
  if pos <? 0 then mret None
  else
    it ← _get pos false;
    mret (Some (it, pos)).

Definition positions (reverse : bool) : M (list Z) :=
  l ← gets opts;
  let r := seqZ 0 (Z.of_nat (length l)) in
  mret (if reverse then rev r else r).

(** [OptionListWalker.__init__] on a fresh panel bound to the store [o];
    the last statement subscribes [sig_mod] to the store's [changed]
    signal, which [call_store] below delivers. *)
Definition new_world (o : Options) : World :=
  {| options := o; opts := []; maxlen := 0%nat; index := 0; editing := false;
     focus_obj := None; help_text := ""; status_messages := []; overlays := [];
     modified := 0%nat |}.

Definition OptionListWalker_init : M unit :=
  modify (set_index 0);;
  o ← gets options;
  modify (set_opts (sorted (keys o)));;
  l ← gets opts;
  n ← lift (max_len l);
  modify (set_maxlen n);;
  modify (set_editing false);;
  set_focus 0.

(** *** The option manager seen from the panel *)

(** A call into the option manager: the store takes its new contents,
    the [changed] signal, when sent, runs the subscribed [sig_mod], and
    the call returns or raises as the manager decided. *)
Definition call_store (r : store_reply) : M unit :=
  modify (set_options (reply_options r));;
  (if reply_changed r then sig_mod else mret tt);;
  match reply_error r with
  | Some e => raise e
  | None => mret tt
  end.

Definition master_options_set (spec : string) : M unit :=
  o ← gets options;
  call_store (options_set o spec).

Definition master_options_toggler (name : string) : M unit :=
  o ← gets options;
  call_store (options_toggler o name).

Definition status_message_send (message : string) : M unit :=
  modify (add_status_message message).

Definition master_overlay (o : Overlay) : M unit := modify (add_overlay o).

(** *** OptionsList *)

Definition can_edit_inplace (o : Opt) : option bool :=
  if has_choices o then Some false
  else if bool_decide (opt_typespec o ∈ [TStr; TInt; TOptStr; TOptInt]) then Some true
  else None.

(** Truthiness of what [can_edit_inplace] returns ([None] is falsy). *)
Definition is_true (r : option bool) : bool :=
  match r with
  | Some b => b
  | None => false
  end.

(** [foc.opt] on what [get_focus] returned. *)
Definition foc_opt (foc : option OptionItem) : M Opt :=
  match foc with
  | Some it => mret (item_opt it)
  | None => raise AttributeError
  end.

(** [foc.opt.current()]: the option object is shared with the store,
    where its value is read. *)
Definition opt_current (o : Opt) : M value :=
  s ← gets options;
  mret (match s !! opt_name o with
        | Some o' => current o'
        | None => current o
        end).

(** [urwid.ListBox.set_focus(position)]: refuses an empty list box,
    then sets the focus of the walker.  (The bookkeeping of the visible
    rows is left out, here and in [ListBox_keypress].) *)
Definition ListBox_set_focus (position : Z) : M unit :=
  '(focus_widget, focus_pos) ← get_focus;
  match focus_widget with
  | None => raise IndexError
  | Some _ => set_focus position
  end.

(** [urwid.ListBox.keypress]: the key goes to the focused row, and when
    the row hands it back, to the cursor movement of the list box. *)
Definition ListBox_keypress (key : string) : M (option string) :=
  f ← gets focus_obj;
  match f with
  | None => mret (Some key)
  | Some it =>
      r ← OptionItem_keypress it key;
      match r with
      | Some it' => modify (set_focus_obj (Some it'));; mret None
      | None =>
          l ← gets opts;
          idx ← gets index;
          match listbox_move (length l) idx key with
          | Some p => set_focus p;; mret None
          | None => mret (Some key)
          end
      end
  end.

(** The [m_select] branch of [OptionsList.keypress], on [foc.opt]. *)
Definition activate (o : Opt) : M unit :=
  if decide (opt_typespec o = TBool) then
    master_options_toggler (opt_name o);;
    idx' ← gets index;
    ListBox_set_focus idx'
  else if is_true (can_edit_inplace o) then
    start_editing;;
    _modified
  else if has_choices o then
    cur ← opt_current o;
    master_overlay (Chooser (opt_name o) (opt_choices o) cur)
  else if decide (opt_typespec o = TSeqStr) then
    cur ← opt_current o;
    master_overlay (OptionsOverlay (opt_name o) cur (HELP_HEIGHT + 5))
  else raise NotImplementedError.

Definition keypress (key : string) : M (option string) :=
  gets editing ≫= λ ed : bool,
  if ed then
    if String.eqb key "enter" then
      '(foc, idx) ← get_focus;
      v ← get_edit_text;
      try_except_OptionsError
        (o ← foc_opt foc;
         master_options_set (opt_name o ++ "=" ++ v))
        status_message_send;;
      stop_editing;;
      mret None
    else if String.eqb key "esc" then
      stop_editing;;
      mret None
    else ListBox_keypress key
  else
    (if String.eqb key "m_start" then
       ListBox_set_focus 0;;
       _modified
     else if String.eqb key "m_end" then
       l ← gets opts;
       ListBox_set_focus (Z.of_nat (length l) - 1);;
       _modified
     else if String.eqb key "m_select" then
       '(foc, idx) ← get_focus;
       o ← foc_opt foc;
       activate o
     else mret tt);;
    ListBox_keypress key.

(** *** What the walker expects of the store and of itself *)

(** Every option object sits in the store under its own name. *)
Definition store_wf (s : Options) : Prop :=
  map_Forall (fun k o => opt_name o = k) s.

(** The names the walker lists are options of the store. *)
Definition names_known (w : World) : Prop :=
  Forall (fun k => is_Some (options w !! k)) (opts w).

Global Instance store_wf_dec s : Decision (store_wf s).
Proof. unfold store_wf. apply _. Defined.

Global Instance names_known_dec w : Decision (names_known w).
Proof. unfold names_known. apply _. Defined.

(** The walker's list is the sorted key set of the store. *)
Definition synced (w : World) : Prop := opts w = sorted (keys (options w)).

Global Instance synced_dec w : Decision (synced w).
Proof. unfold synced. apply _. Defined.

(** The walker is navigating: the editing flag is cleared. *)
Definition not_editing (w : World) : Prop := editing w = false.

(** The walker has a focus object. *)
Definition has_focus (w : World) : Prop := is_Some (focus_obj w).

(** A method keeps the property [P] of the state, on every path. *)
Definition preserves {A : Type} (P : World -> Prop) (m : M A) : Prop :=
  forall w, P w -> P (m w).2.

(** The store's reply to the commit of the edit buffer [v] on the row
    [foc], and to the toggle of the option of the row [foc]. *)
Definition commit_reply (w : World) (foc : OptionItem) (v : string) : store_reply :=
  options_set (options w) (opt_name (item_opt foc) ++ "=" ++ v).

Definition toggle_reply (w : World) (foc : OptionItem) : store_reply :=
  options_toggler (options w) (opt_name (item_opt foc)).

(** [i] is an index into the walker's list of names. *)
Definition in_range (w : World) (i : Z) : Prop :=
  0 <= i < Z.of_nat (length (opts w)).

(** The row [OptionItem(walker, o, is_focused, width, ed)] builds when
    the store holds [o] under its name. *)
Definition row (o : Opt) (is_focused : bool) (width : nat) (ed : bool) : OptionItem :=
  let dv := displayval o in
  let changed := negb (value_eqb (current o) (opt_default o)) in
  {| item_opt := o; focused := is_focused; namewidth := width; item_editing := ed;
     item_w := {| name_width := width;
                  name_text := ljust (opt_name o) width;
                  value_cell := if ed then Edit dv (String.length dv)
                                else Text (valstyle is_focused changed) dv |} |}.

(** The state [set_focus i] leaves when [i] names the option [o]. *)
Definition focus_on (i : Z) (o : Opt) (w : World) : World :=
  bump_modified
    (set_help_text (opt_help o)
       (set_focus_obj (Some (row o true (maxlen w) false))
          (set_index i (set_editing false w)))).

(** ** Properties *)

(** *** The order on names *)

Lemma str_le_alt a b : str_le a b <-> a = b \/ String_as_OT.lt a b.
Proof.
  unfold str_le, String.leb.
  pose proof (String_as_OT.cmp_lt a b) as Hlt.
  pose proof (String_as_OT.cmp_eq a b) as Heq.
  unfold String_as_OT.cmp in *.
  destruct (String.compare a b) eqn:E.
  - split; [intros _; left; apply Heq; reflexivity|reflexivity].
  - split; [intros _; right; apply Hlt; reflexivity|reflexivity].
  - split; [discriminate|].
    intros [H|H]; [apply Heq in H|apply Hlt in H]; congruence.
Qed.

Global Instance str_le_total : Total str_le.
Proof. intros a b. apply String.leb_total. Qed.

Global Instance str_le_antisym : AntiSymm (=) str_le.
Proof. intros a b. apply String.leb_antisym. Qed.

Global Instance str_le_trans : Transitive str_le.
Proof.
  intros a b c. rewrite !str_le_alt. intros [->|H1] [->|H2]; auto.
  right. eapply String_as_OT.lt_trans; eauto.
Qed.

Lemma sorted_Permutation l : sorted l ≡ₚ l.
Proof. apply merge_sort_Permutation. Qed.

Lemma sorted_StronglySorted l : StronglySorted str_le (sorted l).
Proof. apply StronglySorted_merge_sort; apply _. Qed.

Lemma elem_of_sorted_keys (s : Options) k : k ∈ sorted (keys s) <-> is_Some (s !! k).
Proof.
  rewrite sorted_Permutation. unfold keys.
  rewrite elem_of_elements. apply elem_of_dom.
Qed.

Lemma NoDup_sorted_keys (s : Options) : NoDup (sorted (keys s)).
Proof. rewrite sorted_Permutation. unfold keys. apply (NoDup_elements (dom s)). Qed.

Lemma length_sorted_keys (s : Options) : length (sorted (keys s)) = size s.
Proof.
  rewrite sorted_Permutation. unfold keys.
  change (length (elements (dom s))) with (size (dom s)).
  apply size_dom.
Qed.

(** A sorted list of names is determined by the names in it. *)
Lemma sorted_keys_unique (s : Options) (l : list string) :
  StronglySorted str_le l -> NoDup l -> (forall k, k ∈ l <-> is_Some (s !! k)) ->
  l = sorted (keys s).
Proof.
  intros Hs Hn Hl. apply (StronglySorted_unique str_le); auto using sorted_StronglySorted.
  apply NoDup_Permutation; auto using NoDup_sorted_keys.
  intros k. rewrite Hl. symmetry. apply elem_of_sorted_keys.
Qed.

(** *** Indexing *)

Lemma getitem_in_range {A} (l : list A) (i : Z) :
  0 <= i < Z.of_nat (length l) ->
  exists x, l !! Z.to_nat i = Some x /\ getitem l i = Ok x.
Proof.
  intros Hi. unfold getitem.
  destruct (Z.ltb_spec i 0); [lia|]. simpl.
  destruct (Z.ltb_spec i 0); [lia|].
  destruct (Z.leb_spec (Z.of_nat (length l)) i); [lia|]. simpl.
  destruct (l !! Z.to_nat i) as [x|] eqn:E; [eauto|].
  apply lookup_ge_None in E. lia.
Qed.

Lemma getitem_Ok_elem {A} (l : list A) (i : Z) (x : A) :
  getitem l i = Ok x -> x ∈ l.
Proof.
  unfold getitem. destruct (_ || _); [discriminate|].
  destruct (l !! _) eqn:E; [|discriminate].
  intros [= <-]. eapply list_elem_of_lookup_2; eauto.
Qed.

Lemma getitem_out_of_range {A} (l : list A) (i : Z) :
  Z.of_nat (length l) <= i -> getitem l i = Raise IndexError.
Proof.
  intros Hi. unfold getitem.
  destruct (Z.ltb_spec i 0); [lia|]. simpl.
  destruct (Z.ltb_spec i 0); [lia|].
  destruct (Z.leb_spec (Z.of_nat (length l)) i); [|lia]. reflexivity.
Qed.

(** *** Rows *)

Lemma has_changed_known (s : Options) k o :
  store_wf s -> s !! k = Some o ->
  has_changed s (opt_name o) = Ok (negb (value_eqb (current o) (opt_default o))).
Proof.
  intros Hwf Hk. unfold has_changed. rewrite (Hwf _ _ Hk), Hk. reflexivity.
Qed.

Lemma OptionItem_init_ok w k o f wd ed :
  store_wf (options w) -> options w !! k = Some o ->
  OptionItem_init o f wd ed w = (Ok (row o f wd ed), w).
Proof.
  intros Hwf Hk. unfold OptionItem_init, get_widget. run.
  rewrite (has_changed_known _ _ _ Hwf Hk). reflexivity.
Qed.

(** Building a row reads the state and leaves it as it is. *)
Lemma OptionItem_init_frame w o f wd ed : (OptionItem_init o f wd ed w).2 = w.
Proof.
  unfold OptionItem_init, get_widget. run.
  destruct (has_changed _ _); reflexivity.
Qed.

(** A row that was built has the editing flag it was asked for. *)
Lemma OptionItem_init_editing w o f wd ed it w' :
  OptionItem_init o f wd ed w = (Ok it, w') -> item_editing it = ed.
Proof.
  unfold OptionItem_init, get_widget. run.
  destruct (has_changed _ _); intros [= <- _]; reflexivity.
Qed.

Lemma _get_ok w pos ed name o :
  store_wf (options w) -> getitem (opts w) pos = Ok name ->
  options w !! name = Some o ->
  _get pos ed w = (Ok (row o (bool_decide (pos = index w)) (maxlen w) ed), w).
Proof.
  intros Hwf Hn Ho. unfold _get, opts_getitem, options_getitem. run.
  rewrite Hn, Ho. apply (OptionItem_init_ok w name); auto.
Qed.

Lemma _get_frame w pos ed : (_get pos ed w).2 = w.
Proof.
  unfold _get, opts_getitem, options_getitem. run.
  destruct (getitem _ _); [|reflexivity].
  destruct (options w !! _); [|reflexivity].
  apply OptionItem_init_frame.
Qed.

Lemma _get_editing w pos ed it w' :
  _get pos ed w = (Ok it, w') -> item_editing it = ed.
Proof.
  unfold _get, opts_getitem, options_getitem. run.
  destruct (getitem _ _); [|discriminate].
  destruct (options w !! _); [|discriminate].
  apply OptionItem_init_editing.
Qed.

(** A listed name that the store knows, at an index in range. *)
Lemma known_at w i :
  names_known w -> in_range w i ->
  exists name o, opts w !! Z.to_nat i = Some name /\
                 getitem (opts w) i = Ok name /\ options w !! name = Some o.
Proof.
  intros Hk Hi. destruct (getitem_in_range (opts w) i Hi) as (name & Hl & Hg).
  unfold names_known in Hk. rewrite Forall_forall in Hk.
  destruct (Hk name) as [o Ho]; [eapply list_elem_of_lookup_2; eauto|].
  eauto 6.
Qed.

(** *** set_focus *)

Lemma set_focus_ok w i name o :
  store_wf (options w) -> getitem (opts w) i = Ok name ->
  options w !! name = Some o ->
  set_focus i w = (Ok tt, focus_on i o w).
Proof.
  intros Hwf Hn Ho. unfold set_focus.
  unfold mbind at 1, M_bind at 1. unfold modify at 1.
  unfold mbind at 1, M_bind at 1. unfold opts_getitem at 1. simpl. rewrite Hn.
  unfold mbind at 1, M_bind at 1. unfold options_getitem at 1. simpl. rewrite Ho.
  run.
  rewrite (_get_ok _ i false name o); auto.
  simpl. unfold focus_on, _modified, update_help_text. run.
  rewrite bool_decide_eq_true_2 by reflexivity. reflexivity.
Qed.

(** Whatever the index and the state, [set_focus] leaves the editing
    flag cleared: it is the first thing the method does. *)
Lemma set_focus_editing w i : editing (set_focus i w).2 = false.
Proof.
  unfold set_focus, opts_getitem, options_getitem, update_help_text, _modified. run.
  destruct (getitem _ _); [|reflexivity].
  destruct (options w !! _); [|reflexivity].
  match goal with |- context [_get ?p ?e ?w0] =>
    pose proof (_get_frame w0 p e) as Hf; destruct (_get p e w0) as [[it|e'] w1] end;
    simpl in Hf; subst; reflexivity.
Qed.

(** *** sig_mod *)

(** The name list after a resync is the sorted key set of the store,
    whether or not the rest of the method goes through. *)
Lemma sig_mod_frame w :
  opts (sig_mod w).2 = sorted (keys (options w)) /\
  options (sig_mod w).2 = options w /\
  index (sig_mod w).2 = index w.
Proof.
  unfold sig_mod. run.
  destruct (max_len _); [|auto]. simpl.
  unfold _modified. run.
  match goal with |- context [set_focus ?i ?w0] => set (w1 := w0); set (j := i) end.
  unfold set_focus, opts_getitem, options_getitem, update_help_text, _modified. run.
  destruct (getitem _ _); [|auto].
  destruct (options w !! _); [|auto].
  match goal with |- context [_get ?p ?e ?w0] =>
    pose proof (_get_frame w0 p e) as Hf; destruct (_get p e w0) as [[it|e'] w2] end;
    simpl in Hf; subst; auto.
Qed.

Lemma max_len_nonempty l : l <> [] -> exists n, max_len l = Ok n.
Proof. destruct l; [congruence|]. simpl. eauto. Qed.

Lemma sig_mod_ok w :
  store_wf (options w) -> 0 <= index w < Z.of_nat (size (options w)) ->
  exists name o n,
    sorted (keys (options w)) !! Z.to_nat (index w) = Some name /\
    options w !! name = Some o /\
    sig_mod w = (Ok tt, focus_on (index w) o
                          (bump_modified
                             (set_maxlen n (set_opts (sorted (keys (options w))) w)))).
Proof.
  intros Hwf Hi. rewrite <- length_sorted_keys in Hi.
  destruct (getitem_in_range _ _ Hi) as (name & Hl & Hg).
  assert (is_Some (options w !! name)) as [o Ho].
  { apply elem_of_sorted_keys. eapply list_elem_of_lookup_2; eauto. }
  destruct (max_len_nonempty (sorted (keys (options w)))) as [n Hn].
  { intros E. rewrite E in Hi. simpl in Hi. lia. }
  exists name, o, n. split; [auto|]. split; [auto|].
  unfold sig_mod. run. rewrite Hn. simpl. unfold _modified. run.
  apply (set_focus_ok _ _ name); auto.
Qed.

(** C1 (amended): after a resync the walker's name list is the store's
    key set in ascending lexicographic order and the focused index is
    the one it was.  When the store is well formed and that index is
    still below the number of keys, [sig_mod] returns, the index is a
    valid index into the new list, any edit in progress is cancelled and
    the focused row is rebuilt in display mode.  When the (non-empty)
    key set has shrunk to the index or below it, [sig_mod] raises
    [IndexError] and the index is left out of range. *)
Theorem sig_mod_resync (w : World) :
  (StronglySorted str_le (opts (sig_mod w).2) /\
   NoDup (opts (sig_mod w).2) /\
   (forall k, k ∈ opts (sig_mod w).2 <-> k ∈ dom (options w))) /\
  index (sig_mod w).2 = index w /\
  (store_wf (options w) -> 0 <= index w < Z.of_nat (size (options w)) ->
   (sig_mod w).1 = Ok tt /\
   in_range (sig_mod w).2 (index (sig_mod w).2) /\
   editing (sig_mod w).2 = false /\
   exists it st,
     focus_obj (sig_mod w).2 = Some it /\
     item_editing it = false /\ focused it = true /\
     opts (sig_mod w).2 !! Z.to_nat (index w) = Some (opt_name (item_opt it)) /\
     value_cell (item_w it) = Text st (displayval (item_opt it))) /\
  (0 < Z.of_nat (size (options w)) <= index w ->
   (sig_mod w).1 = Raise IndexError /\
   ~ in_range (sig_mod w).2 (index (sig_mod w).2)).
Proof.
  destruct (sig_mod_frame w) as (Ho & Hs & Hi).
  split; [|split; [exact Hi|split]].
  - rewrite Ho. split; [apply sorted_StronglySorted|].
    split; [apply NoDup_sorted_keys|].
    intros k. rewrite elem_of_sorted_keys. symmetry. apply elem_of_dom.
  - intros Hwf Hr.
    destruct (sig_mod_ok w Hwf Hr) as (name & o & n & Hl & Hk & E).
    rewrite E. simpl. split; [reflexivity|].
    split; [unfold in_range; simpl; rewrite length_sorted_keys; exact Hr|].
    split; [reflexivity|].
    pose proof (Hwf _ _ Hk) as Hname. simpl in Hname.
    exists (row o true n false). eexists. split; [reflexivity|]. simpl.
    rewrite Hname. auto.
  - intros Hr. split.
    + unfold sig_mod. run.
      destruct (max_len_nonempty (sorted (keys (options w)))) as [n Hn].
      { intros E. apply (f_equal length) in E. rewrite length_sorted_keys in E.
        simpl in E. lia. }
      rewrite Hn. simpl. unfold _modified. run.
      unfold set_focus, opts_getitem. run.
      rewrite getitem_out_of_range; [reflexivity|].
      rewrite length_sorted_keys. lia.
    + unfold in_range. rewrite Ho, Hi, length_sorted_keys. lia.
Qed.

(** C4: [set_focus] clears the editing flag in every state and for
    every index, before anything else; for an index in range on a
    walker whose names the store knows it returns, the index is the one
    asked for, and the focus object it installs is a display row: built
    with editing false, with a text cell and no edit buffer to read. *)
Theorem set_focus_clears_editing (w : World) (i : Z) :
  editing (set_focus i w).2 = false /\
  (store_wf (options w) -> names_known w -> in_range w i ->
   exists w' it st,
     set_focus i w = (Ok tt, w') /\
     index w' = i /\ editing w' = false /\
     focus_obj w' = Some it /\
     item_editing it = false /\ focused it = true /\
     opts w !! Z.to_nat i = Some (opt_name (item_opt it)) /\
     value_cell (item_w it) = Text st (displayval (item_opt it)) /\
     get_edit_text w' = (Raise AttributeError, w')).
Proof.
  split; [apply set_focus_editing|].
  intros Hwf Hk Hi.
  destruct (known_at w i Hk Hi) as (name & o & Hl & Hg & Ho).
  rewrite (set_focus_ok w i name o Hwf Hg Ho).
  pose proof (Hwf _ _ Ho) as Hname. simpl in Hname.
  exists (focus_on i o w), (row o true (maxlen w) false).
  eexists. split; [reflexivity|]. simpl. rewrite Hname.
  repeat (split; [reflexivity || assumption|]).
  reflexivity.
Qed.

(** *** The display text of a row *)

Lemma contains_char_app c s t :
  contains_char c (s ++ t) = contains_char c s || contains_char c t.
Proof.
  induction s as [|d s IH]; simpl; [reflexivity|].
  rewrite IH. apply orb_assoc.
Qed.

(** [repr] escapes a line break, so no line break is left in it. *)
Lemma repr_char_single_line quote c :
  quote = squote \/ quote = dquote ->
  contains_char newline (repr_char quote c) = false.
Proof.
  intros [->| ->];
    destruct c as [[] [] [] [] [] [] [] []]; vm_compute; reflexivity.
Qed.

Lemma repr_chars_single_line quote s :
  quote = squote \/ quote = dquote ->
  contains_char newline (repr_chars quote s) = false.
Proof.
  intros Hq. induction s as [|c s IH]; simpl; [reflexivity|].
  rewrite contains_char_app, IH, repr_char_single_line; auto.
Qed.

Lemma repr_str_single_line s : contains_char newline (repr_str s) = false.
Proof.
  unfold repr_str.
  destruct (contains_char squote s && negb (contains_char dquote s));
    simpl; rewrite contains_char_app, repr_chars_single_line; auto.
Qed.

Lemma join_single_line l :
  Forall (fun s => contains_char newline s = false) l ->
  contains_char newline (join ", " l) = false.
Proof.
  induction 1 as [|x l Hx Hl IH]; [reflexivity|].
  destruct l as [|y l]; [exact Hx|].
  change (join ", " (x :: y :: l)) with (x ++ ", " ++ join ", " (y :: l)).
  rewrite !contains_char_app, Hx, IH. reflexivity.
Qed.

Lemma repr_list_single_line l : multi_line (repr_list l) = false.
Proof.
  unfold multi_line, repr_list.
  change ("[" ++ join ", " (map repr_str l) ++ "]")
    with (String "[" (join ", " (map repr_str l) ++ "]")).
  simpl. rewrite contains_char_app, join_single_line; [reflexivity|].
  apply Forall_forall. intros s Hs.
  apply list_elem_of_In, in_map_iff in Hs. destruct Hs as (t & <- & _).
  apply repr_str_single_line.
Qed.

(** C5 (amended): the display text of a row is "true" or "false" when
    the typespec is bool; the empty string when the value is falsy and
    the typespec is not bool; [pprint.pformat(value, indent=1)] when the
    typespec is Sequence[str] and the value is truthy, which is the
    one-line [repr] of the list whenever that fits in 80 columns and the
    wrapped layout only otherwise; and [str(value)] in every other case. *)
Theorem displayval_by_type (o : Opt) :
  (opt_typespec o = TBool ->
   displayval o = if truthy (current o) then "true" else "false") /\
  (opt_typespec o <> TBool -> truthy (current o) = false -> displayval o = "") /\
  (opt_typespec o = TSeqStr -> truthy (current o) = true ->
   displayval o = pformat (current o) /\
   forall l, current o = VSeq l ->
     ((String.length (repr_list l) <= 80)%nat ->
      displayval o = repr_list l /\ multi_line (displayval o) = false) /\
     ((80 < String.length (repr_list l))%nat ->
      displayval o = pformat_wrapped (VSeq l))) /\
  (opt_typespec o <> TBool -> opt_typespec o <> TSeqStr -> truthy (current o) = true ->
   displayval o = str (current o)).
Proof.
  unfold displayval. split; [|split; [|split]].
  - intros ->. reflexivity.
  - intros Hb ->. destruct (decide _); [contradiction|reflexivity].
  - intros -> Ht. rewrite Ht. cbn [negb].
    destruct (decide (TSeqStr = TBool)); [discriminate|].
    destruct (decide (TSeqStr = TSeqStr)); [|contradiction].
    split; [reflexivity|].
    intros l ->. unfold pformat.
    change (repr (VSeq l)) with (repr_list l).
    destruct (Nat.leb_spec (String.length (repr_list l)) 80).
    + split; [|lia]. intros _. split; [reflexivity|apply repr_list_single_line].
    + split; [lia|]. intros _. reflexivity.
  - intros Hb Hs ->. do 2 (destruct (decide _); [contradiction|]). reflexivity.
Qed.

(** *** Iteration *)

(** [get_next] returns "no further element" exactly from the last
    position on; short of it, the outcome is a row or an exception. *)
Lemma get_next_None w pos :
  (get_next pos w).1 = Ok None <-> Z.of_nat (length (opts w)) - 1 <= pos.
Proof.
  unfold get_next. run.
  destruct (Z.leb_spec (Z.of_nat (length (opts w)) - 1) pos) as [H|H].
  - simpl. split; auto.
  - destruct (_get (pos + 1) false w) as [[it|e] w1]; simpl;
      split; (discriminate || lia).
Qed.

Lemma get_prev_None w pos : (get_prev pos w).1 = Ok None <-> pos <= 0.
Proof.
  unfold get_prev. run.
  destruct (Z.ltb_spec (pos - 1) 0) as [H|H].
  - simpl. split; [lia|auto].
  - destruct (_get (pos - 1) false w) as [[it|e] w1]; simpl;
      split; (discriminate || lia).
Qed.

Lemma get_next_frame w pos : (get_next pos w).2 = w.
Proof.
  unfold get_next. run. destruct (_ <=? _); [reflexivity|].
  pose proof (_get_frame w (pos + 1) false) as Hf.
  destruct (_get (pos + 1) false w) as [[it|e] w1]; exact Hf.
Qed.

Lemma get_prev_frame w pos : (get_prev pos w).2 = w.
Proof.
  unfold get_prev. run. destruct (_ <? _); [reflexivity|].
  pose proof (_get_frame w (pos - 1) false) as Hf.
  destruct (_get (pos - 1) false w) as [[it|e] w1]; exact Hf.
Qed.

Lemma get_next_row w pos :
  store_wf (options w) -> names_known w ->
  -1 <= pos < Z.of_nat (length (opts w)) - 1 ->
  exists name o,
    opts w !! Z.to_nat (pos + 1) = Some name /\ options w !! name = Some o /\
    get_next pos w =
      (Ok (Some (row o (bool_decide (pos + 1 = index w)) (maxlen w) false, pos + 1)), w).
Proof.
  intros Hwf Hk Hp.
  destruct (known_at w (pos + 1) Hk) as (name & o & Hl & Hg & Ho);
    [unfold in_range; lia|].
  exists name, o. split; [auto|]. split; [auto|].
  unfold get_next. run.
  destruct (Z.leb_spec (Z.of_nat (length (opts w)) - 1) pos); [lia|].
  rewrite (_get_ok w (pos + 1) false name o); auto.
Qed.

Lemma get_prev_row w pos :
  store_wf (options w) -> names_known w ->
  0 < pos <= Z.of_nat (length (opts w)) ->
  exists name o,
    opts w !! Z.to_nat (pos - 1) = Some name /\ options w !! name = Some o /\
    get_prev pos w =
      (Ok (Some (row o (bool_decide (pos - 1 = index w)) (maxlen w) false, pos - 1)), w).
Proof.
  intros Hwf Hk Hp.
  destruct (known_at w (pos - 1) Hk) as (name & o & Hl & Hg & Ho);
    [unfold in_range; lia|].
  exists name, o. split; [auto|]. split; [auto|].
  unfold get_prev. run.
  destruct (Z.ltb_spec (pos - 1) 0); [lia|].
  rewrite (_get_ok w (pos - 1) false name o); auto.
Qed.

(** C6: on a list of n names, [get_next pos] returns (None, None)
    exactly when pos >= n-1 and otherwise the row at pos+1 with pos+1;
    [get_prev pos] returns (None, None) exactly when pos <= 0 and
    otherwise the row at pos-1 with pos-1; neither changes the state.
    The rows are those of a walker whose names the store knows, at the
    positions of the list. *)
Theorem get_next_prev_boundaries (w : World) (pos : Z) :
  ((get_next pos w).1 = Ok None <-> Z.of_nat (length (opts w)) - 1 <= pos) /\
  ((get_prev pos w).1 = Ok None <-> pos <= 0) /\
  (get_next pos w).2 = w /\ (get_prev pos w).2 = w /\
  (store_wf (options w) -> names_known w ->
   (-1 <= pos < Z.of_nat (length (opts w)) - 1 ->
    exists name o,
      opts w !! Z.to_nat (pos + 1) = Some name /\ options w !! name = Some o /\
      get_next pos w =
        (Ok (Some (row o (bool_decide (pos + 1 = index w)) (maxlen w) false, pos + 1)),
         w)) /\
   (0 < pos <= Z.of_nat (length (opts w)) ->
    exists name o,
      opts w !! Z.to_nat (pos - 1) = Some name /\ options w !! name = Some o /\
      get_prev pos w =
        (Ok (Some (row o (bool_decide (pos - 1 = index w)) (maxlen w) false, pos - 1)),
         w))).
Proof.
  split; [apply get_next_None|]. split; [apply get_prev_None|].
  split; [apply get_next_frame|]. split; [apply get_prev_frame|].
  intros Hwf Hk. split; [apply get_next_row|apply get_prev_row]; auto.
Qed.

(** *** Editing *)

Lemma start_editing_ok w name o :
  store_wf (options w) -> getitem (opts w) (index w) = Ok name ->
  options w !! name = Some o ->
  start_editing w =
    (Ok tt, bump_modified
              (set_focus_obj (Some (row o true (maxlen w) true)) (set_editing true w))).
Proof.
  intros Hwf Hn Ho. unfold start_editing. run.
  rewrite (_get_ok _ (index w) true name o); auto.
  simpl. unfold _modified. run.
  rewrite bool_decide_eq_true_2 by reflexivity. reflexivity.
Qed.

Lemma stop_editing_ok w name o :
  store_wf (options w) -> getitem (opts w) (index w) = Ok name ->
  options w !! name = Some o ->
  stop_editing w = (Ok tt, bump_modified (focus_on (index w) o w)).
Proof.
  intros Hwf Hn Ho. unfold stop_editing. run.
  rewrite (_get_ok _ (index w) false name o); auto.
  simpl. rewrite (set_focus_ok _ (index w) name o); auto.
Qed.

(** C9: a row that [get_next] or [get_prev] returns never carries the
    editing flag.  While an edit is in progress on a walker whose names
    the store knows, iterating onto the focused position yields the
    focused row in display mode, whereas [start_editing] installs, and
    [get_focus] then returns, a focus object that carries the flag and
    the edit widget. *)
Theorem iteration_rows_not_editing (w : World) (pos : Z) :
  (forall it p w', get_next pos w = (Ok (Some (it, p)), w') -> item_editing it = false) /\
  (forall it p w', get_prev pos w = (Ok (Some (it, p)), w') -> item_editing it = false) /\
  (store_wf (options w) -> names_known w -> in_range w (index w) ->
   editing w = true ->
   (exists it, get_next (index w - 1) w = (Ok (Some (it, index w)), w) /\
               focused it = true /\ item_editing it = false) /\
   (exists it, get_prev (index w + 1) w = (Ok (Some (it, index w)), w) /\
               focused it = true /\ item_editing it = false) /\
   (exists w' it, start_editing w = (Ok tt, w') /\
                  get_focus w' = (Ok (Some it, index w), w') /\
                  focused it = true /\ item_editing it = true /\
                  value_cell (item_w it)
                  = Edit (displayval (item_opt it))
                         (String.length (displayval (item_opt it))))).
Proof.
  split; [|split].
  - intros it p w'. unfold get_next. run. destruct (_ <=? _); [discriminate|].
    destruct (_get (pos + 1) false w) as [[it'|e] w1] eqn:E; [|discriminate].
    intros [= <- _ _]. eapply _get_editing; eauto.
  - intros it p w'. unfold get_prev. run. destruct (_ <? _); [discriminate|].
    destruct (_get (pos - 1) false w) as [[it'|e] w1] eqn:E; [|discriminate].
    intros [= <- _ _]. eapply _get_editing; eauto.
  - intros Hwf Hk Hi He. unfold in_range in Hi. split; [|split].
    + destruct (get_next_row w (index w - 1) Hwf Hk) as (name & o & _ & _ & E); [lia|].
      replace (index w - 1 + 1) with (index w) in E by lia.
      rewrite bool_decide_eq_true_2 in E by reflexivity.
      eexists. split; [exact E|]. split; reflexivity.
    + destruct (get_prev_row w (index w + 1) Hwf Hk) as (name & o & _ & _ & E); [lia|].
      replace (index w + 1 - 1) with (index w) in E by lia.
      rewrite bool_decide_eq_true_2 in E by reflexivity.
      eexists. split; [exact E|]. split; reflexivity.
    + destruct (known_at w (index w) Hk Hi) as (name & o & Hl & Hg & Ho).
      rewrite (start_editing_ok w name o Hwf Hg Ho).
      eexists _, _. split; [reflexivity|].
      split; [reflexivity|]. simpl. auto.
Qed.

(** A step that reads the store and never writes it. *)
Lemma set_focus_options w i : options (set_focus i w).2 = options w.
Proof.
  unfold set_focus, opts_getitem, options_getitem, update_help_text, _modified. run.
  destruct (getitem _ _); [|reflexivity].
  destruct (options w !! _); [|reflexivity].
  match goal with |- context [_get ?p ?e ?w0] =>
    pose proof (_get_frame w0 p e) as Hf; destruct (_get p e w0) as [[it|e'] w1] end;
    simpl in Hf; subst; reflexivity.
Qed.

Lemma start_editing_options w : options (start_editing w).2 = options w.
Proof.
  unfold start_editing, _modified. run.
  match goal with |- context [_get ?p ?e ?w0] =>
    pose proof (_get_frame w0 p e) as Hf; destruct (_get p e w0) as [[it|e'] w1] end;
    simpl in Hf; subst; reflexivity.
Qed.

Lemma stop_editing_options w : options (stop_editing w).2 = options w.
Proof.
  unfold stop_editing, _modified. run.
  match goal with |- context [_get ?p ?e ?w0] =>
    pose proof (_get_frame w0 p e) as Hf; destruct (_get p e w0) as [[it|e'] w1] end;
    simpl in Hf; subst; [|reflexivity].
  match goal with |- context [set_focus ?i ?w0] =>
    pose proof (set_focus_options w0 i) as Hf; destruct (set_focus i w0) as [[[]|e'] w1] end;
    simpl in Hf; subst; exact Hf.
Qed.

(** C7: [start_editing()] followed at once by [stop_editing()] never
    writes the store, whatever the state; on a walker whose names the
    store knows and whose index is in range both calls return, and the
    cursor is back in display mode at the same index, with the focused
    row rebuilt from the unchanged option. *)
Theorem start_stop_editing_roundtrip (w : World) :
  options ((start_editing;; stop_editing) w).2 = options w /\
  (store_wf (options w) -> names_known w -> in_range w (index w) ->
   exists w' name o,
     (start_editing;; stop_editing) w = (Ok tt, w') /\
     options w' = options w /\ opts w' = opts w /\ index w' = index w /\
     editing w' = false /\
     opts w !! Z.to_nat (index w) = Some name /\ options w !! name = Some o /\
     focus_obj w' = Some (row o true (maxlen w) false) /\
     status_messages w' = status_messages w /\ overlays w' = overlays w).
Proof.
  split.
  - run. pose proof (start_editing_options w) as H1.
    destruct (start_editing w) as [[[]|e] w1]; simpl in H1; [|exact H1].
    rewrite stop_editing_options. exact H1.
  - intros Hwf Hk Hi.
    destruct (known_at w (index w) Hk Hi) as (name & o & Hl & Hg & Ho).
    run. rewrite (start_editing_ok w name o Hwf Hg Ho).
    rewrite (stop_editing_ok _ name o); auto.
    eexists _, name, o. split; [reflexivity|]. simpl. auto 10.
Qed.

(** *** What the methods leave alone *)

Section Preserved.

Variable P : World -> Prop.

Hypothesis P_opts : forall l w, P w -> P (set_opts l w).
Hypothesis P_maxlen : forall n w, P w -> P (set_maxlen n w).
Hypothesis P_index : forall i w, P w -> P (set_index i w).
Hypothesis P_not_editing : forall w, P w -> P (set_editing false w).
Hypothesis P_focus_obj : forall it w, P w -> P (set_focus_obj (Some it) w).
Hypothesis P_help_text : forall t w, P w -> P (set_help_text t w).
Hypothesis P_modified : forall w, P w -> P (bump_modified w).
Hypothesis P_options : forall o w, P w -> P (set_options o w).

Lemma preserves_ret {A} (a : A) : preserves P (mret a).
Proof. intros w H. exact H. Qed.

Lemma preserves_raise {A} e : preserves P (raise (A := A) e).
Proof. intros w H. exact H. Qed.

Lemma preserves_gets {A} (f : World -> A) : preserves P (gets f).
Proof. intros w H. exact H. Qed.

Lemma preserves_lift {A} (r : result A) : preserves P (lift r).
Proof. intros w H. exact H. Qed.

Lemma preserves_modify (f : World -> World) :
  (forall w, P w -> P (f w)) -> preserves P (modify f).
Proof. intros Hf w H. apply Hf, H. Qed.

Lemma preserves_bind {A B} (m : M A) (f : A -> M B) :
  preserves P m -> (forall a, preserves P (f a)) -> preserves P (m ≫= f).
Proof.
  intros Hm Hf w H. run. specialize (Hm w H).
  destruct (m w) as [[a|e] w1]; simpl in *; [apply Hf|]; exact Hm.
Qed.

Lemma preserves_frame {A} (m : M A) : (forall w, (m w).2 = w) -> preserves P m.
Proof. intros Hm w H. rewrite Hm. exact H. Qed.

Lemma preserves__get pos ed : preserves P (_get pos ed).
Proof. apply preserves_frame. intros w. apply _get_frame. Qed.

Lemma preserves_opts_getitem i : preserves P (opts_getitem i).
Proof. intros w H. exact H. Qed.

Lemma preserves_options_getitem k : preserves P (options_getitem k).
Proof. intros w H. unfold options_getitem. destruct (options w !! k); exact H. Qed.

Create HintDb preserve.

Lemma preserves__modified : preserves P _modified.
Proof. apply preserves_modify. exact P_modified. Qed.

Lemma preserves_update_help_text t : preserves P (update_help_text t).
Proof. apply preserves_modify. apply P_help_text. Qed.

Local Hint Resolve preserves_ret preserves_raise preserves_gets preserves_lift
  preserves_modify preserves__get preserves_opts_getitem preserves_options_getitem
  preserves__modified preserves_update_help_text : preserve.

Ltac preserve_step :=
  first [ solve [auto with preserve]
        | apply preserves_bind; [|intros] ].

Lemma preserves_set_focus i : preserves P (set_focus i).
Proof. unfold set_focus. repeat preserve_step. Qed.

Local Hint Resolve preserves_set_focus : preserve.

Lemma preserves_ListBox_set_focus i : preserves P (ListBox_set_focus i).
Proof.
  unfold ListBox_set_focus.
  apply preserves_bind; [unfold get_focus; repeat preserve_step|].
  intros [[it|] pos]; auto with preserve.
Qed.

Lemma preserves_sig_mod : preserves P sig_mod.
Proof. unfold sig_mod. repeat preserve_step. Qed.

Lemma preserves_stop_editing : preserves P stop_editing.
Proof. unfold stop_editing. repeat preserve_step. Qed.

Lemma preserves_call_store r : preserves P (call_store r).
Proof.
  unfold call_store. apply preserves_bind; [auto with preserve|intros _].
  apply preserves_bind.
  - destruct (reply_changed r); [apply preserves_sig_mod|auto with preserve].
  - intros _. destruct (reply_error r); auto with preserve.
Qed.

Lemma preserves_OptionItem_keypress it key : preserves P (OptionItem_keypress it key).
Proof.
  unfold OptionItem_keypress. destruct (item_editing it); [|auto with preserve].
  destruct (value_cell _); [|auto with preserve].
  destruct (edit_keypress _ _ _). auto with preserve.
Qed.

Lemma preserves_ListBox_keypress key : preserves P (ListBox_keypress key).
Proof.
  unfold ListBox_keypress. apply preserves_bind; [auto with preserve|intros [it|]].
  - apply preserves_bind; [apply preserves_OptionItem_keypress|intros [it'|]].
    + repeat preserve_step.
    + do 2 (apply preserves_bind; [auto with preserve|intros]).
      destruct (listbox_move _ _ _); [|auto with preserve].
      apply preserves_bind; [apply preserves_set_focus|intros; auto with preserve].
  - auto with preserve.
Qed.

Lemma preserves_master_options_toggler name : preserves P (master_options_toggler name).
Proof.
  unfold master_options_toggler. apply preserves_bind; [auto with preserve|intros].
  apply preserves_call_store.
Qed.

Lemma preserves_toggle_and_refocus name :
  preserves P (master_options_toggler name;; idx ← gets index; ListBox_set_focus idx).
Proof.
  apply preserves_bind; [apply preserves_master_options_toggler|intros _].
  apply preserves_bind; [auto with preserve|intros].
  apply preserves_ListBox_set_focus.
Qed.

End Preserved.

(** *** The activate key *)

Lemma keypress_m_select w foc :
  editing w = false -> focus_obj w = Some foc ->
  keypress "m_select" w = (activate (item_opt foc);; ListBox_keypress "m_select") w.
Proof. intros He Hf. unfold keypress, get_focus, foc_opt. run. rewrite He, Hf. reflexivity. Qed.

Lemma can_edit_inplace_true o :
  is_true (can_edit_inplace o) = true <->
  has_choices o = false /\ opt_typespec o ∈ [TStr; TInt; TOptStr; TOptInt].
Proof.
  unfold can_edit_inplace. destruct (has_choices o); simpl.
  - split; [discriminate|intros [? _]; discriminate].
  - destruct (bool_decide_reflect (opt_typespec o ∈ [TStr; TInt; TOptStr; TOptInt]));
      simpl; split; auto; try discriminate. intros [_ ?]. contradiction.
Qed.

Lemma editable_not_bool_seq o :
  opt_typespec o ∈ [TStr; TInt; TOptStr; TOptInt] ->
  opt_typespec o <> TBool /\ opt_typespec o <> TSeqStr.
Proof.
  intros H. split; intros E; rewrite E in H;
    apply (bool_decide_pack _) in H; vm_compute in H; exact H.
Qed.

Lemma not_editing_setters :
  (forall l w, not_editing w -> not_editing (set_opts l w)) /\
  (forall n w, not_editing w -> not_editing (set_maxlen n w)) /\
  (forall i w, not_editing w -> not_editing (set_index i w)) /\
  (forall w, not_editing w -> not_editing (set_editing false w)) /\
  (forall it w, not_editing w -> not_editing (set_focus_obj (Some it) w)) /\
  (forall t w, not_editing w -> not_editing (set_help_text t w)) /\
  (forall w, not_editing w -> not_editing (bump_modified w)) /\
  (forall o w, not_editing w -> not_editing (set_options o w)).
Proof. unfold not_editing. repeat split; auto. Qed.

Lemma not_editing_ListBox_keypress key : preserves not_editing (ListBox_keypress key).
Proof.
  destruct not_editing_setters as (H1 & H2 & H3 & H4 & H5 & H6 & H7 & H8).
  apply preserves_ListBox_keypress; auto.
Qed.

(** Every branch of the activate key but the in-place edit leaves the
    editing flag cleared. *)
Lemma not_editing_activate o :
  opt_typespec o = TBool \/ is_true (can_edit_inplace o) = false ->
  preserves not_editing (activate o).
Proof.
  destruct not_editing_setters as (H1 & H2 & H3 & H4 & H5 & H6 & H7 & H8).
  intros Ho. unfold activate.
  destruct (decide (opt_typespec o = TBool)) as [Hb|Hb].
  - apply preserves_toggle_and_refocus; auto.
  - destruct Ho as [Ho|Ho]; [contradiction|]. rewrite Ho.
    destruct (has_choices o); [|destruct (decide _)];
      unfold opt_current, master_overlay; intros w Hw; exact Hw.
Qed.

(** C3: pressing activate in navigating mode can leave the editing flag
    set only when the focused option has no choices and its typespec is
    str, int, Optional[str] or Optional[int]; for a typespec of bool, a
    non-empty choices sequence or a typespec of Sequence[str] the flag
    stays cleared.  (For an editable option on a walker whose names the
    store knows, the flag is set.) *)
Theorem activate_edits_only_inplace (w : World) (foc : OptionItem) :
  editing w = false -> focus_obj w = Some foc ->
  (editing (keypress "m_select" w).2 = true ->
   has_choices (item_opt foc) = false /\
   opt_typespec (item_opt foc) ∈ [TStr; TInt; TOptStr; TOptInt]) /\
  (opt_typespec (item_opt foc) = TBool \/ has_choices (item_opt foc) = true \/
   opt_typespec (item_opt foc) = TSeqStr ->
   editing (keypress "m_select" w).2 = false) /\
  (has_choices (item_opt foc) = false ->
   opt_typespec (item_opt foc) ∈ [TStr; TInt; TOptStr; TOptInt] ->
   store_wf (options w) -> names_known w -> in_range w (index w) ->
   editing (keypress "m_select" w).2 = true).
Proof.
  intros He Hf. rewrite (keypress_m_select w foc He Hf).
  set (o := item_opt foc).
  assert (Hquiet : opt_typespec o = TBool \/ is_true (can_edit_inplace o) = false ->
                   editing ((activate o;; ListBox_keypress "m_select") w).2 = false).
  { intros Ho.
    apply (preserves_bind not_editing (activate o) (fun _ => ListBox_keypress "m_select"));
      [apply not_editing_activate; exact Ho
      |intros _; apply not_editing_ListBox_keypress|exact He]. }
  split; [|split].
  - intros Ht. apply can_edit_inplace_true.
    destruct (is_true (can_edit_inplace o)) eqn:E; [reflexivity|].
    rewrite Hquiet in Ht; [discriminate|auto].
  - intros Ho. apply Hquiet.
    destruct Ho as [Hb|[Hc|Hs]]; [auto| |]; right.
    + unfold can_edit_inplace. rewrite Hc. reflexivity.
    + destruct (is_true (can_edit_inplace o)) eqn:E; [|reflexivity].
      apply can_edit_inplace_true in E. destruct E as [_ E].
      apply editable_not_bool_seq in E. tauto.
  - intros Hc Ht Hwf Hk Hi.
    destruct (known_at w (index w) Hk Hi) as (name & o' & Hl & Hg & Ho').
    destruct (editable_not_bool_seq o Ht) as [Hb _].
    unfold activate. destruct (decide (opt_typespec o = TBool)); [contradiction|].
    assert (E : is_true (can_edit_inplace o) = true)
      by (apply can_edit_inplace_true; auto).
    rewrite E. run.
    rewrite (start_editing_ok w name o' Hwf Hg Ho'). simpl.
    unfold _modified, ListBox_keypress, OptionItem_keypress. run.
    destruct (edit_keypress _ _ _). reflexivity.
Qed.

(** C8: in navigating mode, activate on a focused option whose typespec
    is not bool, that is not editable in place, that has no choices and
    whose typespec is not Sequence[str] raises [NotImplementedError];
    nothing else happens. *)
Theorem activate_unknown_type_raises (w : World) (foc : OptionItem) :
  editing w = false -> focus_obj w = Some foc ->
  opt_typespec (item_opt foc) <> TBool ->
  is_true (can_edit_inplace (item_opt foc)) = false ->
  has_choices (item_opt foc) = false ->
  opt_typespec (item_opt foc) <> TSeqStr ->
  keypress "m_select" w = (Raise NotImplementedError, w).
Proof.
  intros He Hf Hb Hc Hh Hs. rewrite (keypress_m_select w foc He Hf).
  unfold activate. run.
  do 2 (destruct (decide _); [contradiction|]).
  rewrite Hc, Hh. reflexivity.
Qed.


(** *** Calls into the option manager *)

Lemma synced_names_known w : synced w -> names_known w.
Proof.
  unfold synced, names_known. intros ->. apply Forall_forall.
  intros k. apply elem_of_sorted_keys.
Qed.

Lemma keys_dom (s s' : Options) : dom s' = dom s -> keys s' = keys s.
Proof. unfold keys. intros ->. reflexivity. Qed.

Lemma size_dom_eq (s s' : Options) : dom s' = dom s -> size s' = size s.
Proof. intros H. rewrite <- !(size_dom (D := gset string)), H. reflexivity. Qed.

(** A call that leaves a well-formed store with the same names, on a
    walker in step with the store: the store takes the reply's contents
    and the walker, resynced or not, lists the same names at the same
    index. *)
Lemma call_store_ok w r :
  synced w -> in_range w (index w) ->
  store_wf (reply_options r) -> dom (reply_options r) = dom (options w) ->
  exists w1,
    call_store r w
    = (match reply_error r with Some e => Raise e | None => Ok tt end, w1) /\
    options w1 = reply_options r /\ opts w1 = opts w /\ index w1 = index w /\
    status_messages w1 = status_messages w /\ overlays w1 = overlays w.
Proof.
  intros Hs Hi Hwf Hd. unfold call_store. run.
  destruct (reply_changed r).
  - destruct (sig_mod_ok (set_options (reply_options r) w)) as (name & o & n & _ & _ & E).
    + exact Hwf.
    + simpl. rewrite (size_dom_eq _ _ Hd), <- length_sorted_keys, <- Hs. exact Hi.
    + rewrite E. simpl in *. eexists. split.
      * destruct (reply_error r); reflexivity.
      * simpl. rewrite (keys_dom _ _ Hd). auto.
  - eexists. split.
    + destruct (reply_error r); reflexivity.
    + simpl. auto.
Qed.

Lemma refocus_ok w s :
  synced w -> in_range w (index w) -> store_wf s -> dom s = dom (options w) ->
  forall w1, options w1 = s -> opts w1 = opts w -> index w1 = index w ->
  exists name o,
    opts w !! Z.to_nat (index w) = Some name /\ s !! name = Some o /\
    getitem (opts w1) (index w1) = Ok name /\
    set_focus (index w1) w1 = (Ok tt, focus_on (index w) o w1) /\
    stop_editing w1 = (Ok tt, bump_modified (focus_on (index w) o w1)).
Proof.
  intros Hs Hi Hwf Hd w1 Ho Hl Hx.
  destruct (getitem_in_range (opts w) (index w) Hi) as (name & Hn & Hg).
  assert (is_Some (s !! name)) as [o Hk].
  { apply elem_of_dom. rewrite Hd. apply elem_of_dom, elem_of_sorted_keys.
    rewrite <- Hs. eapply list_elem_of_lookup_2; eauto. }
  exists name, o. split; [auto|]. split; [auto|].
  assert (Hg1 : getitem (opts w1) (index w1) = Ok name) by (rewrite Hl, Hx; exact Hg).
  split; [exact Hg1|]. rewrite <- Ho in Hwf, Hk.
  rewrite <- Hx.
  split; [apply (set_focus_ok _ _ name)|apply (stop_editing_ok _ name)]; auto.
Qed.

(** *** The commit key *)

(** C2: a commit keypress while editing hands "<name>=<buffer>" to the
    store's set operation; whether the store accepts it or raises a
    validation error, the keypress returns with the editing flag cleared
    and the focused row rebuilt in display mode from the store as the
    call left it.  On a validation error the error text is appended to
    the status messages and, the store rejecting atomically, the store
    is the one before the keypress; on success no message is sent. *)
Theorem commit_always_stops_editing (w : World) (foc : OptionItem) (v : string) (p : nat) :
  editing w = true -> focus_obj w = Some foc -> value_cell (item_w foc) = Edit v p ->
  synced w -> in_range w (index w) ->
  store_wf (reply_options (commit_reply w foc v)) ->
  dom (reply_options (commit_reply w foc v)) = dom (options w) ->
  (reply_error (commit_reply w foc v) <> None ->
   reply_options (commit_reply w foc v) = options w) ->
  (reply_error (commit_reply w foc v) = None \/
   exists msg, reply_error (commit_reply w foc v) = Some (OptionsError msg)) ->
  exists w' name o,
    keypress "enter" w = (Ok None, w') /\
    editing w' = false /\ index w' = index w /\
    options w' = reply_options (commit_reply w foc v) /\
    opts w !! Z.to_nat (index w) = Some name /\
    options w' !! name = Some o /\
    focus_obj w' = Some (row o true (maxlen w') false) /\
    overlays w' = overlays w /\
    (reply_error (commit_reply w foc v) = None ->
     status_messages w' = status_messages w) /\
    (forall msg, reply_error (commit_reply w foc v) = Some (OptionsError msg) ->
     status_messages w' = (status_messages w ++ [msg])%list /\ options w' = options w).
Proof.
  intros He Hf Hc Hs Hi Hwf Hd Hatomic Herr.
  destruct (call_store_ok w (commit_reply w foc v) Hs Hi Hwf Hd)
    as (w1 & E & Ho & Hl & Hx & Hm & Hv).
  unfold keypress, get_focus, get_edit_text, OptionItem_get_edit_text, foc_opt,
    try_except_OptionsError, master_options_set, status_message_send.
  run. rewrite He, Hf. simpl. rewrite Hc. simpl.
  unfold commit_reply in *. rewrite E.
  destruct Herr as [Hnone|[msg Hmsg]].
  - rewrite Hnone in *. simpl.
    destruct (refocus_ok w _ Hs Hi Hwf Hd w1 Ho Hl Hx) as (name & o & Hn & Hk & _ & _ & E2).
    rewrite E2. simpl.
    exists (bump_modified (focus_on (index w) o w1)), name, o. simpl.
    rewrite Ho. split_all; auto.
    intros msg. discriminate.
  - rewrite Hmsg in *. simpl.
    destruct (refocus_ok w _ Hs Hi Hwf Hd (add_status_message msg w1))
      as (name & o & Hn & Hk & _ & _ & E2); auto.
    rewrite E2. simpl.
    exists (bump_modified (focus_on (index w) o (add_status_message msg w1))), name, o.
    simpl. rewrite Ho, Hm. split_all; auto.
    + discriminate.
    + intros msg' [= <-]. split; [reflexivity|]. apply Hatomic. discriminate.
Qed.

(** *** The activate key on a boolean option *)

Lemma has_focus_master_options_toggler name :
  preserves has_focus (master_options_toggler name).
Proof. apply preserves_master_options_toggler; unfold has_focus; simpl; eauto. Qed.

(** With a focus object in place, the list box's [set_focus] after the
    toggle is the walker's. *)
Lemma toggle_refocus_set_focus w name :
  has_focus w ->
  (master_options_toggler name;; idx ← gets index; ListBox_set_focus idx) w
  = (master_options_toggler name;; idx ← gets index; set_focus idx) w.
Proof.
  intros Hf. pose proof (has_focus_master_options_toggler name w Hf) as H1.
  run. destruct (master_options_toggler name w) as [[[]|e] w1]; [|reflexivity].
  simpl in H1. unfold ListBox_set_focus, get_focus. run.
  destruct H1 as [it ->]. reflexivity.
Qed.

(** C10: on a focused option whose typespec is bool, whatever its
    choices, activate in navigating mode is the store's toggle followed
    by [set_focus] at the current index, then the list box's own key
    handling; no overlay is opened and the editing flag stays cleared.
    When the toggle returns with a well-formed store of the same names
    and the list box has no movement for the key, the keypress returns
    and the focused row is rebuilt from the toggled option. *)
Theorem activate_bool_toggles (w : World) (foc : OptionItem) :
  editing w = false -> focus_obj w = Some foc ->
  opt_typespec (item_opt foc) = TBool ->
  keypress "m_select" w
  = ((master_options_toggler (opt_name (item_opt foc));;
      idx ← gets index; set_focus idx);;
     ListBox_keypress "m_select") w /\
  overlays (keypress "m_select" w).2 = overlays w /\
  editing (keypress "m_select" w).2 = false /\
  (synced w -> in_range w (index w) ->
   store_wf (reply_options (toggle_reply w foc)) ->
   dom (reply_options (toggle_reply w foc)) = dom (options w) ->
   reply_error (toggle_reply w foc) = None ->
   listbox_move (length (opts w)) (index w) "m_select" = None ->
   exists w' name o,
     keypress "m_select" w = (Ok (Some "m_select"), w') /\
     options w' = reply_options (toggle_reply w foc) /\
     index w' = index w /\ editing w' = false /\
     opts w !! Z.to_nat (index w) = Some name /\
     options w' !! name = Some o /\
     focus_obj w' = Some (row o true (maxlen w') false) /\
     overlays w' = overlays w).
Proof.
  intros He Hf Hb.
  assert (E : keypress "m_select" w
              = ((master_options_toggler (opt_name (item_opt foc));;
                  idx ← gets index; set_focus idx);;
                 ListBox_keypress "m_select") w).
  { rewrite (keypress_m_select w foc He Hf). unfold activate.
    destruct (decide _); [|contradiction].
    unfold mbind at 1 3, M_bind at 1 3.
    rewrite toggle_refocus_set_focus; [reflexivity|].
    unfold has_focus. rewrite Hf. eauto. }
  split; [exact E|]. split; [|split].
  - rewrite (keypress_m_select w foc He Hf).
    apply (preserves_bind (fun w' => overlays w' = overlays w));
      [unfold activate; destruct (decide _); [|contradiction];
       apply preserves_toggle_and_refocus; auto
      |intros _; apply preserves_ListBox_keypress; auto|reflexivity].
  - rewrite (keypress_m_select w foc He Hf).
    apply (preserves_bind not_editing);
      [apply not_editing_activate; auto
      |intros _; apply not_editing_ListBox_keypress|exact He].
  - rewrite E.
    intros Hs Hi Hwf Hd Hnone Hmove.
    destruct (call_store_ok w (toggle_reply w foc) Hs Hi Hwf Hd)
      as (w1 & E1 & Ho & Hl & Hx & Hm & Hv).
    destruct (refocus_ok w _ Hs Hi Hwf Hd w1 Ho Hl Hx)
      as (name & o & Hn & Hk & _ & E2 & _).
    unfold master_options_toggler, ListBox_keypress, OptionItem_keypress. run.
    unfold toggle_reply in *. rewrite E1, Hnone. simpl.
    rewrite E2. simpl. rewrite Hl, Hmove.
    exists (focus_on (index w) o w1), name, o. simpl.
    rewrite Ho. auto 10.
Qed.

(** ** Further properties of the panel *)

(** *** Start-up and resync *)

Lemma sorted_keys_empty (s : Options) : s = ∅ -> sorted (keys s) = [].
Proof.
  intros ->. apply length_zero_iff_nil. rewrite length_sorted_keys.
  apply map_size_empty.
Qed.

Lemma sorted_keys_nonempty (s : Options) : s <> ∅ -> sorted (keys s) <> [].
Proof.
  intros Hs E. apply Hs. apply map_size_empty_iff.
  rewrite <- length_sorted_keys, E. reflexivity.
Qed.

(** The first name of the sorted list is the least one. *)
Lemma sorted_keys_first (s : Options) name :
  sorted (keys s) !! 0%nat = Some name ->
  forall k, is_Some (s !! k) -> str_le name k.
Proof.
  intros Hn k Hk. apply elem_of_sorted_keys in Hk.
  pose proof (sorted_StronglySorted (keys s)) as Hs.
  destruct (sorted (keys s)) as [|x l]; [discriminate|].
  injection Hn as ->. apply StronglySorted_inv in Hs. destruct Hs as [_ Hall].
  apply elem_of_cons in Hk. destruct Hk as [->|Hk].
  - destruct (str_le_total name name); assumption.
  - rewrite Forall_forall in Hall. apply Hall, Hk.
Qed.



Lemma max_len_bound l n :
  max_len l = Ok n -> Forall (fun k => (String.length k <= n)%nat) l.
Proof.
  assert (H : forall l' : list string,
             Forall (fun k => (String.length k
                               <= foldr (fun s m => Nat.max (String.length s) m) 0 l')%nat)
                    l').
  { induction l' as [|y l' IH]; constructor; simpl.
    - lia.
    - eapply Forall_impl; [exact IH|]. simpl. intros k Hk. lia. }
  destruct l as [|x l]; [discriminate|]. intros [= <-]. exact (H (x :: l)).
Qed.

(** X1: [OptionListWalker.__init__] on an empty store raises
    [ValueError]; on a well-formed store that is not empty it returns
    with the names sorted, the index 0 on the least name, the editing
    flag cleared, [maxlen] the longest name's length, the first row in
    display mode as focus object, and its help in the help pane. *)
Theorem OptionListWalker_init_start (s : Options) :
  (s = ∅ -> (OptionListWalker_init (new_world s)).1 = Raise ValueError) /\
  (store_wf s -> s <> ∅ ->
   exists w name o,
     OptionListWalker_init (new_world s) = (Ok tt, w) /\
     options w = s /\ synced w /\ names_known w /\
     index w = 0 /\ in_range w (index w) /\ editing w = false /\
     max_len (opts w) = Ok (maxlen w) /\
     opts w !! 0%nat = Some name /\ s !! name = Some o /\
     (forall k, is_Some (s !! k) -> str_le name k) /\
     focus_obj w = Some (row o true (maxlen w) false) /\
     help_text w = opt_help o /\
     status_messages w = [] /\ overlays w = []).
Proof.
  split.
  - intros Hs. unfold OptionListWalker_init. run.
    rewrite (sorted_keys_empty s Hs). reflexivity.
  - intros Hwf Hs.
    pose proof (sorted_keys_nonempty s Hs) as Hne.
    destruct (max_len_nonempty _ Hne) as [n Hn].
    assert (Hr : 0 <= 0 < Z.of_nat (length (sorted (keys s)))).
    { destruct (sorted (keys s)); [congruence|]. simpl. lia. }
    destruct (getitem_in_range _ 0 Hr) as (name & Hl & Hg).
    assert (is_Some (s !! name)) as [o Ho].
    { apply elem_of_sorted_keys. eapply list_elem_of_lookup_2; eauto. }
    unfold OptionListWalker_init. run. rewrite Hn. simpl.
    rewrite (set_focus_ok _ 0 name o); auto.
    change (Z.to_nat 0) with 0%nat in Hl.
    eexists _, name, o. split; [reflexivity|]. simpl.
    split_all; auto;
      first [ reflexivity
            | apply synced_names_known; reflexivity
            | exact Hr
            | apply sorted_keys_first; exact Hl ].
Qed.

(** X2: [sig_mod] on an empty store raises [ValueError] from the
    [max] over no names, before [set_focus] is reached: the name list is
    emptied and everything else, the editing flag and the focus object
    of an edit in progress included, is left as it was. *)
Theorem sig_mod_empty_store (w : World) :
  options w = ∅ -> sig_mod w = (Raise ValueError, set_opts [] w).
Proof.
  intros Hs. unfold sig_mod. run. rewrite (sorted_keys_empty _ Hs). reflexivity.
Qed.

(** X3: [sig_mod] is idempotent: on a well-formed store with the index
    below the number of keys, a second resync returns the state of the
    first, but for the two further [_modified()] notifications. *)
Theorem sig_mod_idempotent (w : World) :
  store_wf (options w) -> 0 <= index w < Z.of_nat (size (options w)) ->
  exists w1,
    sig_mod w = (Ok tt, w1) /\
    sig_mod w1 = (Ok tt, bump_modified (bump_modified w1)).
Proof.
  intros Hwf Hi.
  destruct (sig_mod_ok w Hwf Hi) as (name & o & n & Hl & Ho & E).
  eexists. split; [exact E|].
  set (w1 := focus_on _ _ _).
  destruct (sig_mod_ok w1) as (name' & o' & n' & Hl' & Ho' & E'); [exact Hwf|exact Hi|].
  rewrite E'. simpl in Hl', Ho'.
  assert (name' = name) as -> by congruence.
  assert (o' = o) as -> by congruence.
  assert (Hg : getitem (sorted (keys (options w))) (index w) = Ok name).
  { destruct (getitem_in_range (sorted (keys (options w))) (index w))
      as (x & Hx & Hgx); [rewrite length_sorted_keys; exact Hi|].
    congruence. }
  assert (Hn : max_len (sorted (keys (options w))) = Ok n').
  { revert E'. unfold sig_mod. run.
    destruct (max_len (sorted (keys (options w)))) as [m|e]; [|discriminate].
    simpl. unfold _modified. run.
    rewrite (set_focus_ok _ (index w) name o); auto.
    intros Hm. apply (f_equal (fun r => maxlen r.2)) in Hm. simpl in Hm. congruence. }
  assert (Hn0 : max_len (sorted (keys (options w))) = Ok n).
  { revert E. unfold sig_mod. run.
    destruct (max_len (sorted (keys (options w)))) as [m|e]; [|discriminate].
    simpl. unfold _modified. run.
    rewrite (set_focus_ok _ (index w) name o); auto.
    intros Hm. apply (f_equal (fun r => maxlen r.2)) in Hm. simpl in Hm. congruence. }
  assert (n' = n) as -> by congruence.
  reflexivity.
Qed.

(** *** Rows and their layout *)

(** X4: whenever [_get pos editing] builds a row, it leaves the state as
    it is; the row is that of the option the store holds under the name
    at [pos]; it is marked focused exactly when [pos] equals the focused
    index; its value cell is the edit widget seeded with the display
    text when [editing] is set, and otherwise the display text in the
    style picked by focus and by whether the store reports the option
    changed. *)
Theorem _get_row (w : World) (pos : Z) (ed : bool) (it : OptionItem) (w' : World) :
  _get pos ed w = (Ok it, w') ->
  w' = w /\
  (exists name, getitem (opts w) pos = Ok name /\ options w !! name = Some (item_opt it)) /\
  (focused it = true <-> pos = index w) /\
  item_editing it = ed /\ namewidth it = maxlen w /\
  name_text (item_w it) = ljust (opt_name (item_opt it)) (maxlen w) /\
  exists changed,
    has_changed (options w) (opt_name (item_opt it)) = Ok changed /\
    value_cell (item_w it)
    = if ed then Edit (displayval (item_opt it))
                      (String.length (displayval (item_opt it)))
      else Text (valstyle (focused it) changed) (displayval (item_opt it)).
Proof.
  unfold _get, opts_getitem, options_getitem, OptionItem_init, get_widget. run.
  destruct (getitem (opts w) pos) as [name|e] eqn:Hg; [|discriminate].
  destruct (options w !! name) as [o|] eqn:Ho; [|discriminate].
  destruct (has_changed (options w) (opt_name o)) as [c|e] eqn:Hc; [|discriminate].
  intros [= <- <-]. simpl. split_all; eauto using bool_decide_eq_true.
Qed.

Lemma length_append (a b : string) :
  String.length (a ++ b) = (String.length a + String.length b)%nat.
Proof. induction a as [|c a IH]; simpl; [reflexivity|]. rewrite IH. reflexivity. Qed.

Lemma length_spaces n : String.length (spaces n) = n.
Proof. induction n as [|n IH]; simpl; [reflexivity|]. rewrite IH. reflexivity. Qed.

Lemma length_ljust s width :
  String.length (ljust s width) = Nat.max (String.length s) width.
Proof. unfold ljust. rewrite length_append, length_spaces. lia. Qed.

(** X5: after a resync that returned, on a well-formed store, the name
    cell of every row the walker builds is exactly [maxlen] characters
    wide, so the value column is aligned. *)
Theorem sig_mod_aligns_names (w : World) (pos : Z) (ed : bool) (it : OptionItem)
    (w' : World) :
  store_wf (options w) ->
  (sig_mod w).1 = Ok tt ->
  _get pos ed (sig_mod w).2 = (Ok it, w') ->
  String.length (name_text (item_w it)) = maxlen (sig_mod w).2 /\
  forall k, k ∈ opts (sig_mod w).2 -> (String.length k <= maxlen (sig_mod w).2)%nat.
Proof.
  intros Hwf Hok Hget.
  destruct (sig_mod_frame w) as (Ho & Hs & _).
  assert (Hmax : max_len (opts (sig_mod w).2) = Ok (maxlen (sig_mod w).2)).
  { revert Hok. unfold sig_mod. run.
    destruct (max_len (sorted (keys (options w)))) as [n|e] eqn:Hn; [|discriminate].
    simpl. unfold _modified. run.
    intros _.
    match goal with |- context [set_focus ?i ?w0] =>
      apply (fun H1 H2 H3 H4 H5 =>
               preserves_set_focus (fun w1 => max_len (opts w1) = Ok (maxlen w1))
                 H1 H2 H3 H4 H5 i w0) end; auto. }
  pose proof (max_len_bound _ _ Hmax) as Hb. rewrite Forall_forall in Hb.
  split; [|exact Hb].
  destruct (_get_row _ _ _ _ _ Hget) as (_ & (name & Hg & Hk) & _ & _ & _ & Hn & _).
  rewrite Hn, length_ljust. rewrite Hs in Hk.
  rewrite (Hwf _ _ Hk).
  apply getitem_Ok_elem, Hb in Hg. lia.
Qed.

(** *** Iteration *)

(** X6: [positions] changes nothing and yields every valid index once,
    in ascending order, or in descending order when [reverse] is set. *)
Theorem positions_valid (w : World) :
  exists l,
    positions false w = (Ok l, w) /\ positions true w = (Ok (rev l), w) /\
    (forall i, i ∈ l <-> in_range w i) /\
    length l = length (opts w) /\
    (forall n i, l !! n = Some i -> i = Z.of_nat n).
Proof.
  exists (seqZ 0 (Z.of_nat (length (opts w)))).
  split; [reflexivity|]. split; [reflexivity|]. split; [|split].
  - intros i. rewrite elem_of_seqZ. unfold in_range. lia.
  - rewrite length_seqZ. lia.
  - intros n i Hn. apply lookup_seqZ in Hn. lia.
Qed.

(** X7: on a walker whose names the store knows, stepping forward from
    a position and then backward from where that led, or backward and
    then forward, comes back to the position, with the row [_get]
    builds there in display mode. *)
Theorem get_next_get_prev_inverse (w : World) (pos : Z) :
  store_wf (options w) -> names_known w -> in_range w pos ->
  (pos < Z.of_nat (length (opts w)) - 1 ->
   exists it p it',
     get_next pos w = (Ok (Some (it, p)), w) /\
     get_prev p w = (Ok (Some (it', pos)), w) /\
     _get pos false w = (Ok it', w)) /\
  (0 < pos ->
   exists it p it',
     get_prev pos w = (Ok (Some (it, p)), w) /\
     get_next p w = (Ok (Some (it', pos)), w) /\
     _get pos false w = (Ok it', w)).
Proof.
  intros Hwf Hk Hi. unfold in_range in Hi.
  destruct (known_at w pos Hk Hi) as (name & o & _ & Hg & Ho).
  pose proof (_get_ok w pos false name o Hwf Hg Ho) as Eg.
  split; intros Hp.
  - destruct (get_next_row w pos Hwf Hk) as (n1 & o1 & _ & _ & E1); [lia|].
    destruct (get_prev_row w (pos + 1) Hwf Hk) as (n2 & o2 & Hl2 & Ho2 & E2); [lia|].
    replace (pos + 1 - 1) with pos in * by lia.
    eexists _, _, _. split; [exact E1|]. split; [exact E2|].
    destruct (getitem_in_range (opts w) pos Hi) as (x & Hx & Hgx).
    assert (n2 = name) as -> by congruence.
    assert (o2 = o) as -> by congruence.
    exact Eg.
  - destruct (get_prev_row w pos Hwf Hk) as (n1 & o1 & _ & _ & E1); [lia|].
    destruct (get_next_row w (pos - 1) Hwf Hk) as (n2 & o2 & Hl2 & Ho2 & E2); [lia|].
    replace (pos - 1 + 1) with pos in * by lia.
    eexists _, _, _. split; [exact E1|]. split; [exact E2|].
    destruct (getitem_in_range (opts w) pos Hi) as (x & Hx & Hgx).
    assert (n2 = name) as -> by congruence.
    assert (o2 = o) as -> by congruence.
    exact Eg.
Qed.

(** *** The edit buffer *)

(** X8: on a walker whose names the store knows, [start_editing] seeds
    the edit buffer with the display text of the focused option, which
    [get_edit_text] then returns; the store is not written. *)
Theorem start_editing_seeds_buffer (w : World) :
  store_wf (options w) -> names_known w -> in_range w (index w) ->
  exists name o w',
    opts w !! Z.to_nat (index w) = Some name /\ options w !! name = Some o /\
    start_editing w = (Ok tt, w') /\
    get_edit_text w' = (Ok (displayval o), w') /\
    editing w' = true /\ index w' = index w /\ options w' = options w.
Proof.
  intros Hwf Hk Hi.
  destruct (known_at w (index w) Hk Hi) as (name & o & Hl & Hg & Ho).
  exists name, o. eexists. split; [exact Hl|]. split; [exact Ho|].
  split; [apply (start_editing_ok w name o Hwf Hg Ho)|].
  split_all; reflexivity.
Qed.

(** *** Keys while editing *)

(** What the navigation of the panel leaves alone: the store, the list
    of names, the status messages and the overlays of the state [w0]. *)
Definition same_outside (w0 w : World) : Prop :=
  options w = options w0 /\ opts w = opts w0 /\
  status_messages w = status_messages w0 /\ overlays w = overlays w0.

Lemma same_outside_setters w0 :
  (forall i w, same_outside w0 w -> same_outside w0 (set_index i w)) /\
  (forall w, same_outside w0 w -> same_outside w0 (set_editing false w)) /\
  (forall it w, same_outside w0 w -> same_outside w0 (set_focus_obj (Some it) w)) /\
  (forall t w, same_outside w0 w -> same_outside w0 (set_help_text t w)) /\
  (forall w, same_outside w0 w -> same_outside w0 (bump_modified w)).
Proof. unfold same_outside. split_all; intros; simpl; tauto. Qed.

Lemma same_outside_refl w : same_outside w w.
Proof. unfold same_outside. auto. Qed.

Lemma stop_editing_editing w : editing (stop_editing w).2 = false.
Proof.
  unfold stop_editing, _modified. run.
  match goal with |- context [_get ?p ?e ?w0] =>
    pose proof (_get_frame w0 p e) as Hf; destruct (_get p e w0) as [[it|e'] w1] end;
    simpl in Hf; subst; [|reflexivity].
  match goal with |- context [set_focus ?i ?w0] =>
    pose proof (set_focus_editing w0 i) as Hf; destruct (set_focus i w0) as [[[]|e'] w1] end;
    simpl in Hf; subst; exact Hf.
Qed.

Lemma keypress_esc w :
  editing w = true -> keypress "esc" w = (stop_editing;; mret None) w.
Proof. intros He. unfold keypress. run. rewrite He. reflexivity. Qed.

(** X9: the cancel key while editing never writes the store, sends no
    status message, opens no overlay and leaves the editing flag
    cleared; on a walker whose names the store knows it returns, the key
    handled, with the focused row rebuilt in display mode at the same
    index. *)
Theorem escape_cancels_edit (w : World) :
  editing w = true ->
  same_outside w (keypress "esc" w).2 /\
  editing (keypress "esc" w).2 = false /\
  (store_wf (options w) -> names_known w -> in_range w (index w) ->
   exists name o,
     opts w !! Z.to_nat (index w) = Some name /\ options w !! name = Some o /\
     keypress "esc" w = (Ok None, bump_modified (focus_on (index w) o w))).
Proof.
  intros He. rewrite (keypress_esc w He).
  destruct (same_outside_setters w) as (H1 & H2 & H3 & H4 & H5).
  split; [|split].
  - apply (preserves_bind (same_outside w) stop_editing (fun _ => mret None));
      [apply preserves_stop_editing; auto|intros _ w1 Hw1; exact Hw1
      |apply same_outside_refl].
  - run. pose proof (stop_editing_editing w) as Hs.
    destruct (stop_editing w) as [[[]|e] w1]; exact Hs.
  - intros Hwf Hk Hi.
    destruct (known_at w (index w) Hk Hi) as (name & o & Hl & Hg & Ho).
    exists name, o. split; [exact Hl|]. split; [exact Ho|].
    run. rewrite (stop_editing_ok w name o Hwf Hg Ho). reflexivity.
Qed.

(** The row [it] after its edit widget took the key. *)
Definition typed_into (it : OptionItem) (t : string) (p : nat) : OptionItem :=
  {| item_opt := item_opt it; focused := focused it; namewidth := namewidth it;
     item_editing := item_editing it;
     item_w := {| name_width := name_width (item_w it);
                  name_text := name_text (item_w it);
                  value_cell := Edit t p |} |}.

(** X10: while a row is being edited, every key but the commit and
    cancel keys goes to the row's edit widget and nowhere else: the
    keypress returns the key handled, and only the text and cursor of
    the edit widget change.  The focus does not move, the editing flag
    stays set and the list box's movement is not consulted, also for the
    keys that navigate or activate in display mode. *)
Theorem editing_keys_go_to_edit_widget (w : World) (it : OptionItem) (t : string)
    (p : nat) (key : string) :
  editing w = true -> focus_obj w = Some it ->
  item_editing it = true -> value_cell (item_w it) = Edit t p ->
  key <> "enter" -> key <> "esc" ->
  keypress key w
  = (Ok None,
     set_focus_obj
       (Some (typed_into it (edit_keypress t p key).1 (edit_keypress t p key).2)) w).
Proof.
  intros He Hf Hi Hc Hn1 Hn2. apply String.eqb_neq in Hn1, Hn2.
  unfold keypress, ListBox_keypress, OptionItem_keypress. run.
  rewrite He, Hn1, Hn2, Hf. simpl. rewrite Hi, Hc.
  destruct (edit_keypress t p key). unfold typed_into. simpl. rewrite Hi. reflexivity.
Qed.

(** X11: the commit key catches the store's [OptionsError] and nothing
    else: when [set] ends with another exception (and sent no signal),
    the keypress raises it, [stop_editing] is not reached, and the
    panel is left in edit mode on the store as the call left it, with
    no status message. *)
Theorem commit_other_error_propagates (w : World) (foc : OptionItem) (v : string)
    (p : nat) (e : exn) :
  editing w = true -> focus_obj w = Some foc -> value_cell (item_w foc) = Edit v p ->
  reply_changed (commit_reply w foc v) = false ->
  reply_error (commit_reply w foc v) = Some e ->
  (forall msg, e <> OptionsError msg) ->
  keypress "enter" w
  = (Raise e, set_options (reply_options (commit_reply w foc v)) w).
Proof.
  intros He Hf Hc Hch Herr Hne.
  unfold keypress, get_focus, get_edit_text, OptionItem_get_edit_text, foc_opt,
    try_except_OptionsError, master_options_set, call_store.
  run. rewrite He, Hf. simpl. rewrite Hc. simpl.
  unfold commit_reply in *. rewrite Hch, Herr. simpl.
  destruct e; try reflexivity. exfalso. eapply Hne. reflexivity.
Qed.

(** *** Keys while navigating *)

(** A key of the panel that the list box has no movement for ends up,
    on a display row, handed back. *)
Lemma ListBox_keypress_unhandled w it key :
  focus_obj w = Some it -> item_editing it = false ->
  listbox_move (length (opts w)) (index w) key = None ->
  ListBox_keypress key w = (Ok (Some key), w).
Proof.
  intros Hf Hi Hm. unfold ListBox_keypress, OptionItem_keypress. run.
  rewrite Hf. simpl. rewrite Hi. simpl. rewrite Hm. reflexivity.
Qed.



(** The focused index names a row of the list. *)
Definition on_row (w : World) : Prop :=
  exists name, getitem (opts w) (index w) = Ok name.

Lemma on_row_set_focus i : preserves on_row (set_focus i).
Proof.
  intros w Hw. unfold set_focus, opts_getitem, options_getitem, update_help_text,
    _modified. run.
  destruct (getitem (opts w) i) as [name|e] eqn:Hg; [|exact Hw].
  destruct (options w !! name); [|exact Hw].
  match goal with |- context [_get ?p ?e ?w0] =>
    pose proof (_get_frame w0 p e) as Hf; destruct (_get p e w0) as [[it|e'] w1] end;
    simpl in Hf; subst; exists name; exact Hg.
Qed.

(** The keys that call into the store: commit while editing, activate
    while navigating. *)
Definition store_key (w : World) (key : string) : Prop :=
  (editing w = true /\ key = "enter") \/ (editing w = false /\ key = "m_select").

Lemma keypress_navigation w key :
  ~ store_key w key ->
  forall P : World -> Prop,
    (forall w, P w -> P (set_editing false w)) ->
    (forall it w, P w -> P (set_focus_obj (Some it) w)) ->
    (forall w, P w -> P (bump_modified w)) ->
    (forall i, preserves P (set_focus i)) ->
    P w -> P (keypress key w).2.
Proof.
  intros Hk P H2 H3 H5 Hsf Hw.
  assert (Hlb : preserves P (ListBox_keypress key)).
  { unfold ListBox_keypress.
    apply preserves_bind; [intros w1 Hw1; exact Hw1|intros [it|]];
      [|intros w1 Hw1; exact Hw1].
    apply preserves_bind; [apply preserves_OptionItem_keypress|intros [it'|]].
    - apply preserves_bind; [apply preserves_modify; auto|intros _ w1 Hw1; exact Hw1].
    - apply preserves_bind; [intros w1 Hw1; exact Hw1|intros l].
      apply preserves_bind; [intros w1 Hw1; exact Hw1|intros idx].
      destruct (listbox_move _ _ _); [|intros w1 Hw1; exact Hw1].
      apply preserves_bind; [apply Hsf|intros _ w1 Hw1; exact Hw1]. }
  assert (Hls : forall i, preserves P (ListBox_set_focus i)).
  { intros i. unfold ListBox_set_focus.
    apply preserves_bind; [intros w1 Hw1; exact Hw1|intros [[it|] pos]];
      [apply Hsf|intros w1 Hw1; exact Hw1]. }
  assert (Hse : preserves P stop_editing).
  { unfold stop_editing, _modified.
    apply preserves_bind; [apply preserves_modify; auto|intros _].
    apply preserves_bind; [intros w1 Hw1; exact Hw1|intros idx].
    apply preserves_bind; [apply preserves__get|intros it].
    apply preserves_bind; [apply preserves_modify; auto|intros _].
    apply preserves_bind; [intros w1 Hw1; exact Hw1|intros idx'].
    apply preserves_bind; [apply Hsf|intros _].
    apply preserves_modify; auto. }
  unfold keypress. unfold mbind at 1, M_bind at 1, gets at 1.
  destruct (editing w) eqn:He.
  - destruct (String.eqb_spec key "enter") as [->|Hn].
    { exfalso. apply Hk. left. auto. }
    destruct (String.eqb key "esc").
    + apply (preserves_bind P stop_editing (fun _ => mret None));
        [exact Hse|intros _ w1 Hw1; exact Hw1|exact Hw].
    + apply Hlb, Hw.
  - match goal with |- P ((?m;; ?k) w).2 =>
      apply (preserves_bind P m (fun _ => k)); [|intros _; exact Hlb|exact Hw] end.
    destruct (String.eqb key "m_start").
    { apply preserves_bind; [apply Hls|intros _]. apply preserves_modify; auto. }
    destruct (String.eqb key "m_end").
    { apply preserves_bind; [intros w1 Hw1; exact Hw1|intros l].
      apply preserves_bind; [apply Hls|intros _]. apply preserves_modify; auto. }
    destruct (String.eqb_spec key "m_select") as [->|Hn].
    { exfalso. apply Hk. right. auto. }
    intros w1 Hw1. exact Hw1.
Qed.

(** X14: a key that is not a call into the store (neither commit while
    editing nor activate while navigating) never writes the store, the
    name list, the status messages or the overlays, never sets the
    editing flag, and never leaves the focused index off the list:
    whatever position the list box moves to, an index that named a row
    names one afterwards. *)
Theorem navigation_keeps_cursor_on_row (w : World) (key : string) :
  ~ store_key w key ->
  same_outside w (keypress key w).2 /\
  (on_row w -> on_row (keypress key w).2) /\
  (editing w = false -> editing (keypress key w).2 = false).
Proof.
  intros Hk.
  destruct (same_outside_setters w) as (H1 & H2 & H3 & H4 & H5).
  destruct not_editing_setters as (_ & _ & N3 & N4 & N5 & N6 & N7 & _).
  split; [|split].
  - apply (keypress_navigation w key Hk (same_outside w)); auto.
    + intros i. apply preserves_set_focus; auto.
    + apply same_outside_refl.
  - apply (keypress_navigation w key Hk on_row).
    + intros w1 [name Hn]. exists name. exact Hn.
    + intros it w1 [name Hn]. exists name. exact Hn.
    + intros w1 [name Hn]. exists name. exact Hn.
    + apply on_row_set_focus.
  - apply (keypress_navigation w key Hk not_editing); auto.
    intros i. apply preserves_set_focus; auto.
Qed.

(** *** The bounds of set_focus *)

Lemma getitem_outside {A} (l : list A) (i : Z) :
  ~ (- Z.of_nat (length l) <= i < Z.of_nat (length l)) ->
  getitem l i = Raise IndexError.
Proof.
  intros Hi. unfold getitem.
  destruct (Z.ltb_spec i 0); simpl.
  - destruct (Z.ltb_spec (i + Z.of_nat (length l)) 0); [reflexivity|lia].
  - destruct (Z.ltb_spec i 0); [lia|].
    destruct (Z.leb_spec (Z.of_nat (length l)) i); [reflexivity|lia].
Qed.

Lemma getitem_negative {A} (l : list A) (i : Z) :
  - Z.of_nat (length l) <= i < 0 ->
  exists x, l !! Z.to_nat (Z.of_nat (length l) + i) = Some x /\ getitem l i = Ok x.
Proof.
  intros Hi. unfold getitem.
  destruct (Z.ltb_spec i 0); [|lia]. simpl.
  destruct (Z.ltb_spec (i + Z.of_nat (length l)) 0); [lia|].
  destruct (Z.leb_spec (Z.of_nat (length l)) (i + Z.of_nat (length l))); [lia|]. simpl.
  replace (Z.of_nat (length l) + i) with (i + Z.of_nat (length l)) by lia.
  destruct (l !! Z.to_nat (i + Z.of_nat (length l))) as [x|] eqn:E; [eauto|].
  apply lookup_ge_None in E. lia.
Qed.

(** X15: [set_focus] at its bounds.  An index outside the list, from
    either end, raises [IndexError], and a listed name the store does
    not know raises [KeyError]: in both cases the index, the focus
    object and the help text are as before, yet the editing flag is
    already cleared.  A negative index within the list counts from the
    end, as Python's indexing does: the row at [len + i] takes the focus
    and the index is kept as the negative number given. *)
Theorem set_focus_bounds (w : World) (i : Z) :
  (~ (- Z.of_nat (length (opts w)) <= i < Z.of_nat (length (opts w))) ->
   set_focus i w = (Raise IndexError, set_editing false w)) /\
  (forall name, getitem (opts w) i = Ok name -> options w !! name = None ->
   set_focus i w = (Raise (KeyError name), set_editing false w)) /\
  (store_wf (options w) -> names_known w ->
   - Z.of_nat (length (opts w)) <= i < 0 ->
   exists name o,
     opts w !! Z.to_nat (Z.of_nat (length (opts w)) + i) = Some name /\
     options w !! name = Some o /\
     set_focus i w = (Ok tt, focus_on i o w) /\
     index (focus_on i o w) = i /\ ~ in_range (focus_on i o w) i).
Proof.
  split; [|split].
  - intros Hi. unfold set_focus, opts_getitem. run.
    rewrite (getitem_outside _ _ Hi). reflexivity.
  - intros name Hg Hn. unfold set_focus, opts_getitem, options_getitem. run.
    rewrite Hg, Hn. reflexivity.
  - intros Hwf Hk Hi.
    destruct (getitem_negative (opts w) i Hi) as (name & Hl & Hg).
    unfold names_known in Hk. rewrite Forall_forall in Hk.
    destruct (Hk name) as [o Ho]; [eapply list_elem_of_lookup_2; eauto|].
    exists name, o. split; [exact Hl|]. split; [exact Ho|].
    split; [apply (set_focus_ok w i name o Hwf Hg Ho)|].
    split; [reflexivity|]. unfold in_range. lia.
Qed.

(** *** The activate key on options with choices and on sequences *)

(** The value [foc.opt.current()] reads. *)
Definition live_value (w : World) (o : Opt) : value :=
  match options w !! opt_name o with
  | Some o' => current o'
  | None => current o
  end.

(** X16: in navigating mode, activate on a focused display row whose
    option has a non-empty choices sequence and whose typespec is not
    bool opens the chooser overlay with the option's name, its choices
    and its current value, whatever the typespec otherwise is (the
    choices are tested before the sequence type, and rule out editing in
    place); nothing else changes, and the key is handed back when the
    list box has no movement for it. *)
Theorem activate_opens_chooser (w : World) (foc : OptionItem) :
  editing w = false -> focus_obj w = Some foc -> item_editing foc = false ->
  opt_typespec (item_opt foc) <> TBool -> has_choices (item_opt foc) = true ->
  listbox_move (length (opts w)) (index w) "m_select" = None ->
  keypress "m_select" w
  = (Ok (Some "m_select"),
     add_overlay (Chooser (opt_name (item_opt foc)) (opt_choices (item_opt foc))
                    (live_value w (item_opt foc))) w).
Proof.
  intros He Hf Hi Hb Hc Hm. rewrite (keypress_m_select w foc He Hf).
  unfold activate, opt_current, master_overlay. run.
  destruct (decide _); [contradiction|].
  unfold can_edit_inplace. rewrite Hc. simpl.
  apply (ListBox_keypress_unhandled _ foc); auto.
Qed.

(** X17: in navigating mode, activate on a focused display row whose
    option has typespec Sequence[str] and no choices opens the list
    editor overlay with the option's name, its current value and the
    height [HELP_HEIGHT + 5]; nothing else changes, and the key is
    handed back when the list box has no movement for it. *)
Theorem activate_opens_sequence_editor (w : World) (foc : OptionItem) :
  editing w = false -> focus_obj w = Some foc -> item_editing foc = false ->
  opt_typespec (item_opt foc) = TSeqStr -> has_choices (item_opt foc) = false ->
  listbox_move (length (opts w)) (index w) "m_select" = None ->
  keypress "m_select" w
  = (Ok (Some "m_select"),
     add_overlay (OptionsOverlay (opt_name (item_opt foc))
                    (live_value w (item_opt foc)) 10) w).
Proof.
  intros He Hf Hi Hs Hc Hm. rewrite (keypress_m_select w foc He Hf).
  unfold activate, opt_current, master_overlay. run.
  rewrite Hs. simpl. unfold can_edit_inplace. rewrite Hc, Hs. simpl.
  apply (ListBox_keypress_unhandled _ foc); auto.
Qed.

(** *** The name under the cursor *)

(** [Options.current_name]: the name of the focused row's option. *)
Definition current_name : M string :=
  '(foc, idx) ← get_focus;
  o ← foc_opt foc;
  mret (opt_name o).

(** X18: on a walker whose names the store knows, after [set_focus i]
    for an index in range [current_name()] is the i-th name of the
    sorted list, and it still is once [start_editing] has replaced the
    focus object by the row being edited. *)
Theorem current_name_follows_focus (w : World) (i : Z) :
  store_wf (options w) -> names_known w -> in_range w i ->
  exists name,
    opts w !! Z.to_nat i = Some name /\
    (set_focus i;; current_name) w = (Ok name, (set_focus i w).2) /\
    ((set_focus i;; start_editing);; current_name) w
    = (Ok name, ((set_focus i;; start_editing) w).2).
Proof.
  intros Hwf Hk Hi.
  destruct (known_at w i Hk Hi) as (name & o & Hl & Hg & Ho).
  pose proof (Hwf _ _ Ho) as Hname. simpl in Hname.
  exists name. split; [exact Hl|].
  unfold current_name, get_focus, foc_opt. run.
  rewrite (set_focus_ok w i name o Hwf Hg Ho). simpl.
  split; [rewrite Hname; reflexivity|].
  rewrite (start_editing_ok (focus_on i o w) name o); auto.
  simpl. rewrite Hname. reflexivity.
Qed.

End Panel.

(** ** The two panes *)

Section Panes.

Variable pformat_wrapped : value -> string.
Variable options_set : Options -> string -> store_reply.
Variable options_toggler : Options -> string -> store_reply.
Variable edit_keypress : string -> nat -> string -> string * nat.
Variable listbox_move : nat -> Z -> string -> option Z.

(** [urwid.ListBox.keypress] of the option list on the key [None]. *)
Variable listbox_keypress_none : M (option string).

(** [urwid.Frame.keypress] of the help pane. *)
Variable help_keypress : option string -> M (option string).

(** The pile of the two panes: the position of the pane that has the
    focus (0 the option list, 1 the help) and the style of the help
    pane's header. *)
Record Panes : Type := {
  focus_position : Z;
  header : string
}.

(** [OptionHelp.set_active]: the style of the header. *)
Definition set_active (val : bool) : string :=
  if val then "heading" else "heading_inactive".

(** [OptionsList.keypress] on a key or on [None]; [None] matches no key
    of the panel and goes to the list box. *)
Definition OptionsList_keypress (key : option string) : M (option string) :=
  match key with
  | Some k => keypress pformat_wrapped options_set options_toggler edit_keypress
                listbox_move k
  | None => listbox_keypress_none
  end.

(** [Options.keypress]: the next-pane key moves the focus round the two
    panes and passes [None] on; the key then goes to the pane in focus.
    (The sizes handed to the pane are left out.) *)
Definition Options_keypress (key : string) (ps : Panes) (w : World)
  : result (option string) * (Panes * World) :=
  let '(ps', key') :=
    if String.eqb key "m_next" then
      let fp := (focus_position ps + 1) mod 2 in
      ({| focus_position := fp; header := set_active (fp =? 1) |}, None)
    else (ps, Some key) in
  let '(r, w') :=
    if focus_position ps' =? 0 then OptionsList_keypress key' w
    else if focus_position ps' =? 1 then help_keypress key' w
    else (Raise IndexError, w) in
  (r, (ps', w')).

(** X19: the next-pane key moves the focus to the other pane, marks the
    help header active exactly when the help pane has the focus, and
    pressed twice comes back to the pane it started from; any other key
    leaves the pane focus and the header alone and, with the option list
    in focus, is handled by the option list's [keypress]. *)
Theorem next_pane_round_robin (ps : Panes) (w : World) (key : string) :
  focus_position ps = 0 \/ focus_position ps = 1 ->
  focus_position (Options_keypress "m_next" ps w).2.1 = 1 - focus_position ps /\
  (header (Options_keypress "m_next" ps w).2.1 = "heading"
   <-> focus_position (Options_keypress "m_next" ps w).2.1 = 1) /\
  (forall w', focus_position
                (Options_keypress "m_next" (Options_keypress "m_next" ps w).2.1 w').2.1
              = focus_position ps) /\
  (key <> "m_next" ->
   (Options_keypress key ps w).2.1 = ps /\
   (focus_position ps = 0 ->
    Options_keypress key ps w
    = ((keypress pformat_wrapped options_set options_toggler edit_keypress
          listbox_move key w).1,
       (ps, (keypress pformat_wrapped options_set options_toggler edit_keypress
               listbox_move key w).2)))).
Proof.
  intros Hp. split_all.
  - unfold Options_keypress. simpl.
    destruct Hp as [-> | ->]; simpl;
      repeat match goal with |- context [let '(_, _) := ?x in _] => destruct x end;
      reflexivity.
  - unfold Options_keypress. simpl.
    destruct Hp as [-> | ->]; simpl;
      repeat match goal with |- context [let '(_, _) := ?x in _] => destruct x end;
      simpl; split; intros H; first [reflexivity | discriminate H].
  - intros w'. unfold Options_keypress. simpl.
    destruct Hp as [-> | ->]; simpl;
      repeat match goal with |- context [let '(_, _) := ?x in _] => destruct x end;
      reflexivity.
  - intros Hk. apply String.eqb_neq in Hk. unfold Options_keypress. rewrite Hk.
    split.
    + repeat match goal with |- context [let '(_, _) := ?x in _] => destruct x end;
        reflexivity.
    + intros ->. simpl.
      destruct (keypress _ _ _ _ _ key w). reflexivity.
Qed.

End Panes.

(** ** The properties on the sample panel *)

(** The key dispatcher over the sample option manager and terminal. *)
Definition press (key : string) : M (option string) :=
  keypress Sample.pformat_wrapped Sample.options_set Sample.options_toggler
    Sample.edit_keypress Sample.listbox_move key.

(** Settle a decidable statement about the sample by computation. *)
Ltac by_computation := apply (bool_decide_unpack _); vm_compute; exact I.

Lemma store_wf_store1 : store_wf Sample.store1.
Proof. apply (bool_decide_unpack _). vm_compute. exact I. Qed.

Lemma store_wf_store2 : store_wf Sample.store2.
Proof. apply (bool_decide_unpack _). vm_compute. exact I. Qed.

(** The claim as the spec states it fails on [Sample.world_shrunk]: the
    focus is on the second of two rows and the store has one option
    left; the resync raises [IndexError] and the index, still 1, is no
    index into the one-element list. *)
Lemma sig_mod_shrunk_counterexample :
  (sig_mod Sample.pformat_wrapped Sample.world_shrunk).1 = Raise IndexError /\
  opts (sig_mod Sample.pformat_wrapped Sample.world_shrunk).2 = ["timeout"] /\
  index (sig_mod Sample.pformat_wrapped Sample.world_shrunk).2 = 1 /\
  length (opts (sig_mod Sample.pformat_wrapped Sample.world_shrunk).2) = 1%nat.
Proof. vm_compute. auto. Qed.

Lemma sig_mod_resync_witness :
  (sig_mod Sample.pformat_wrapped Sample.world_editing_shrunk).1 = Ok tt /\
  in_range (sig_mod Sample.pformat_wrapped Sample.world_editing_shrunk).2
    (index (sig_mod Sample.pformat_wrapped Sample.world_editing_shrunk).2) /\
  editing (sig_mod Sample.pformat_wrapped Sample.world_editing_shrunk).2 = false /\
  exists it st,
    focus_obj (sig_mod Sample.pformat_wrapped Sample.world_editing_shrunk).2 = Some it /\
    item_editing it = false /\ focused it = true /\
    opts (sig_mod Sample.pformat_wrapped Sample.world_editing_shrunk).2
      !! Z.to_nat (index Sample.world_editing_shrunk) = Some (opt_name (item_opt it)) /\
    value_cell (item_w it) = Text st (displayval Sample.pformat_wrapped (item_opt it)).
Proof.
  apply (sig_mod_resync Sample.pformat_wrapped Sample.world_editing_shrunk).
  - exact store_wf_store1.
  - vm_compute. split; congruence.
Defined.

Lemma set_focus_clears_editing_witness :
  exists w' it st,
    set_focus Sample.pformat_wrapped 1 Sample.world_editing = (Ok tt, w') /\
    index w' = 1 /\ editing w' = false /\
    focus_obj w' = Some it /\
    item_editing it = false /\ focused it = true /\
    opts Sample.world_editing !! Z.to_nat 1 = Some (opt_name (item_opt it)) /\
    value_cell (item_w it) = Text st (displayval Sample.pformat_wrapped (item_opt it)) /\
    get_edit_text w' = (Raise AttributeError, w').
Proof.
  apply (set_focus_clears_editing Sample.pformat_wrapped Sample.world_editing 1).
  - exact store_wf_store2.
  - apply (bool_decide_unpack _). vm_compute. exact I.
  - vm_compute. split; congruence.
Defined.

(** The claim as the spec states it fails on a sequence option with one
    short entry: the display text is the one-line ['a'], whatever the
    wrapped layout of the pretty-printer is. *)
Lemma displayval_short_sequence_counterexample :
  opt_typespec Sample.ignore_hosts = TSeqStr /\
  current Sample.ignore_hosts = VSeq ["a"] /\
  (fun wrapped => displayval wrapped Sample.ignore_hosts) = (fun _ => "['a']") /\
  multi_line (displayval Sample.pformat_wrapped Sample.ignore_hosts) = false.
Proof. repeat split. Qed.

Lemma displayval_by_type_witness :
  displayval Sample.pformat_wrapped Sample.verbose = "false" /\
  displayval Sample.pformat_wrapped Sample.stream_large_bodies = "" /\
  (displayval Sample.pformat_wrapped Sample.ignore_hosts = "['a']" /\
   multi_line (displayval Sample.pformat_wrapped Sample.ignore_hosts) = false) /\
  displayval Sample.pformat_wrapped Sample.timeout = "5".
Proof.
  destruct (displayval_by_type Sample.pformat_wrapped Sample.verbose) as (Hb & _).
  destruct (displayval_by_type Sample.pformat_wrapped Sample.stream_large_bodies)
    as (_ & Hf & _).
  destruct (displayval_by_type Sample.pformat_wrapped Sample.ignore_hosts)
    as (_ & _ & Hs & _).
  destruct (displayval_by_type Sample.pformat_wrapped Sample.timeout)
    as (_ & _ & _ & Ho).
  split; [apply Hb; reflexivity|].
  split; [apply Hf; [discriminate|reflexivity]|].
  split; [|apply Ho; [discriminate|discriminate|reflexivity]].
  destruct (Hs eq_refl eq_refl) as (_ & Hl).
  destruct (Hl ["a"] eq_refl) as (Hshort & _).
  apply Hshort. vm_compute. lia.
Defined.

Lemma names_known_world2 : names_known Sample.world2.
Proof. apply (bool_decide_unpack _). vm_compute. exact I. Qed.

Lemma names_known_world_editing : names_known Sample.world_editing.
Proof. apply (bool_decide_unpack _). vm_compute. exact I. Qed.

Lemma get_next_prev_boundaries_witness :
  (exists name o,
     opts Sample.world2 !! Z.to_nat (0 + 1) = Some name /\
     options Sample.world2 !! name = Some o /\
     get_next Sample.pformat_wrapped 0 Sample.world2 =
       (Ok (Some (row Sample.pformat_wrapped o
                    (bool_decide (0 + 1 = index Sample.world2))
                    (maxlen Sample.world2) false, 0 + 1)),
        Sample.world2)) /\
  (exists name o,
     opts Sample.world2 !! Z.to_nat (1 - 1) = Some name /\
     options Sample.world2 !! name = Some o /\
     get_prev Sample.pformat_wrapped 1 Sample.world2 =
       (Ok (Some (row Sample.pformat_wrapped o
                    (bool_decide (1 - 1 = index Sample.world2))
                    (maxlen Sample.world2) false, 1 - 1)),
        Sample.world2)).
Proof.
  split.
  - apply (get_next_prev_boundaries Sample.pformat_wrapped Sample.world2 0).
    + exact store_wf_store2.
    + exact names_known_world2.
    + vm_compute. split; congruence.
  - apply (get_next_prev_boundaries Sample.pformat_wrapped Sample.world2 1).
    + exact store_wf_store2.
    + exact names_known_world2.
    + vm_compute. split; congruence.
Defined.

Lemma iteration_rows_not_editing_witness :
  (exists it, get_next Sample.pformat_wrapped (index Sample.world_editing - 1)
                Sample.world_editing
              = (Ok (Some (it, index Sample.world_editing)), Sample.world_editing) /\
              focused it = true /\ item_editing it = false) /\
  (exists it, get_prev Sample.pformat_wrapped (index Sample.world_editing + 1)
                Sample.world_editing
              = (Ok (Some (it, index Sample.world_editing)), Sample.world_editing) /\
              focused it = true /\ item_editing it = false) /\
  (exists w' it, start_editing Sample.pformat_wrapped Sample.world_editing = (Ok tt, w') /\
                 get_focus w' = (Ok (Some it, index Sample.world_editing), w') /\
                 focused it = true /\ item_editing it = true /\
                 value_cell (item_w it)
                 = Edit (displayval Sample.pformat_wrapped (item_opt it))
                        (String.length (displayval Sample.pformat_wrapped (item_opt it)))).
Proof.
  apply (iteration_rows_not_editing Sample.pformat_wrapped Sample.world_editing 0).
  - exact store_wf_store2.
  - exact names_known_world_editing.
  - vm_compute. split; congruence.
  - reflexivity.
Defined.

Lemma start_stop_editing_roundtrip_witness :
  exists w' name o,
    (start_editing Sample.pformat_wrapped;; stop_editing Sample.pformat_wrapped)
      Sample.world2 = (Ok tt, w') /\
    options w' = options Sample.world2 /\ opts w' = opts Sample.world2 /\
    index w' = index Sample.world2 /\ editing w' = false /\
    opts Sample.world2 !! Z.to_nat (index Sample.world2) = Some name /\
    options Sample.world2 !! name = Some o /\
    focus_obj w' = Some (row Sample.pformat_wrapped o true (maxlen Sample.world2) false) /\
    status_messages w' = status_messages Sample.world2 /\
    overlays w' = overlays Sample.world2.
Proof.
  apply (start_stop_editing_roundtrip Sample.pformat_wrapped Sample.world2).
  - exact store_wf_store2.
  - exact names_known_world2.
  - vm_compute. split; congruence.
Defined.

Lemma commit_always_stops_editing_witness :
  (exists w' name o,
     press "enter" Sample.world_editing_5x = (Ok None, w') /\
     editing w' = false /\ index w' = index Sample.world_editing_5x /\
     options w' = reply_options
                    (commit_reply Sample.options_set Sample.world_editing_5x
                       (Sample.item Sample.timeout true 7 true (Edit "5x" 2)) "5x") /\
     opts Sample.world_editing_5x !! Z.to_nat (index Sample.world_editing_5x) = Some name /\
     options w' !! name = Some o /\
     focus_obj w' = Some (row Sample.pformat_wrapped o true (maxlen w') false) /\
     overlays w' = overlays Sample.world_editing_5x /\
     (reply_error
        (commit_reply Sample.options_set Sample.world_editing_5x
           (Sample.item Sample.timeout true 7 true (Edit "5x" 2)) "5x") = None ->
      status_messages w' = status_messages Sample.world_editing_5x) /\
     (forall msg,
        reply_error
          (commit_reply Sample.options_set Sample.world_editing_5x
             (Sample.item Sample.timeout true 7 true (Edit "5x" 2)) "5x")
        = Some (OptionsError msg) ->
        status_messages w' = (status_messages Sample.world_editing_5x ++ [msg])%list /\
        options w' = options Sample.world_editing_5x)) /\
  (exists w' name o,
     press "enter" Sample.world_editing = (Ok None, w') /\
     editing w' = false /\ index w' = index Sample.world_editing /\
     options w' = reply_options
                    (commit_reply Sample.options_set Sample.world_editing
                       (Sample.item Sample.timeout true 7 true (Edit "5" 1)) "5") /\
     opts Sample.world_editing !! Z.to_nat (index Sample.world_editing) = Some name /\
     options w' !! name = Some o /\
     focus_obj w' = Some (row Sample.pformat_wrapped o true (maxlen w') false) /\
     overlays w' = overlays Sample.world_editing /\
     (reply_error
        (commit_reply Sample.options_set Sample.world_editing
           (Sample.item Sample.timeout true 7 true (Edit "5" 1)) "5") = None ->
      status_messages w' = status_messages Sample.world_editing) /\
     (forall msg,
        reply_error
          (commit_reply Sample.options_set Sample.world_editing
             (Sample.item Sample.timeout true 7 true (Edit "5" 1)) "5")
        = Some (OptionsError msg) ->
        status_messages w' = (status_messages Sample.world_editing ++ [msg])%list /\
        options w' = options Sample.world_editing)).
Proof.
  split.
  - apply (commit_always_stops_editing Sample.pformat_wrapped Sample.options_set
             Sample.options_toggler Sample.edit_keypress Sample.listbox_move
             Sample.world_editing_5x _ "5x" 2%nat).
    + reflexivity.
    + reflexivity.
    + reflexivity.
    + by_computation.
    + vm_compute. split; congruence.
    + by_computation.
    + by_computation.
    + intros _. vm_compute. reflexivity.
    + right. eexists. vm_compute. reflexivity.
  - apply (commit_always_stops_editing Sample.pformat_wrapped Sample.options_set
             Sample.options_toggler Sample.edit_keypress Sample.listbox_move
             Sample.world_editing _ "5" 1%nat).
    + reflexivity.
    + reflexivity.
    + reflexivity.
    + by_computation.
    + vm_compute. split; congruence.
    + by_computation.
    + by_computation.
    + intros H. exfalso. apply H. vm_compute. reflexivity.
    + left. vm_compute. reflexivity.
Defined.

Lemma activate_edits_only_inplace_witness :
  (* a boolean option with choices, an option with choices, and an
     editable one *)
  editing (press "m_select" Sample.world_strict).2 = false /\
  editing (press "m_select" Sample.world_layout).2 = false /\
  editing (press "m_select" Sample.world2).2 = true.
Proof.
  split; [|split].
  - apply (activate_edits_only_inplace Sample.pformat_wrapped Sample.options_set
             Sample.options_toggler Sample.edit_keypress Sample.listbox_move
             Sample.world_strict _ eq_refl eq_refl).
    left. reflexivity.
  - apply (activate_edits_only_inplace Sample.pformat_wrapped Sample.options_set
             Sample.options_toggler Sample.edit_keypress Sample.listbox_move
             Sample.world_layout _ eq_refl eq_refl).
    right. left. reflexivity.
  - apply (activate_edits_only_inplace Sample.pformat_wrapped Sample.options_set
             Sample.options_toggler Sample.edit_keypress Sample.listbox_move
             Sample.world2 _ eq_refl eq_refl).
    + reflexivity.
    + by_computation.
    + exact store_wf_store2.
    + exact names_known_world2.
    + vm_compute. split; congruence.
Defined.

Lemma activate_unknown_type_raises_witness :
  press "m_select" Sample.world_float = (Raise NotImplementedError, Sample.world_float).
Proof.
  apply (activate_unknown_type_raises Sample.pformat_wrapped Sample.options_set
           Sample.options_toggler Sample.edit_keypress Sample.listbox_move
           Sample.world_float _ eq_refl eq_refl).
  - discriminate.
  - reflexivity.
  - reflexivity.
  - discriminate.
Defined.

Lemma activate_bool_toggles_witness :
  overlays (press "m_select" Sample.world_strict).2 = overlays Sample.world_strict /\
  editing (press "m_select" Sample.world_strict).2 = false /\
  exists w' name o,
    press "m_select" Sample.world_strict = (Ok (Some "m_select"), w') /\
    options w' = reply_options
                   (toggle_reply Sample.options_toggler Sample.world_strict
                      (Sample.item Sample.strict true 19 false
                         (Text "option_selected" "false"))) /\
    index w' = index Sample.world_strict /\ editing w' = false /\
    opts Sample.world_strict !! Z.to_nat (index Sample.world_strict) = Some name /\
    options w' !! name = Some o /\
    focus_obj w' = Some (row Sample.pformat_wrapped o true (maxlen w') false) /\
    overlays w' = overlays Sample.world_strict.
Proof.
  destruct (activate_bool_toggles Sample.pformat_wrapped Sample.options_set
              Sample.options_toggler Sample.edit_keypress Sample.listbox_move
              Sample.world_strict _ eq_refl eq_refl eq_refl) as (_ & Hov & Hed & Hrun).
  split; [exact Hov|]. split; [exact Hed|].
  apply Hrun.
  - by_computation.
  - vm_compute. split; congruence.
  - by_computation.
  - by_computation.
  - vm_compute. reflexivity.
  - reflexivity.
Defined.

(** *** The scenario of the spec, run *)

Fixpoint press_all (ks : list string) (w : World) : World :=
  match ks with
  | [] => w
  | k :: ks' => press_all ks' (press k w).2
  end.

Definition shown (w : World) : option (string * valw) :=
  match focus_obj w with
  | Some it => Some (opt_name (item_opt it), value_cell (item_w it))
  | None => None
  end.

Definition value_of (w : World) (name : string) : option value :=
  match options w !! name with
  | Some o => Some (current o)
  | None => None
  end.

(** The sample states are states of the panel: each is reached from a
    start-up by key presses (and, for the shrunk ones, a store that lost
    an option behind the panel's back). *)
Example sample_worlds_reached :
  press_all ["m_select"] Sample.world2 = Sample.world_editing /\
  press_all ["x"] Sample.world_editing = Sample.world_editing_5x /\
  set_options Sample.store1 (press_all ["m_end"] Sample.world2) = Sample.world_shrunk /\
  set_options Sample.store1 Sample.world_editing = Sample.world_editing_shrunk /\
  OptionListWalker_init Sample.pformat_wrapped (new_world Sample.store6)
  = (Ok tt, Sample.world_layout) /\
  press_all ["down"; "down"] Sample.world_layout = Sample.world_float /\
  press_all ["down"] Sample.world_float = Sample.world_strict.
Proof. vm_compute. split_all; reflexivity. Qed.

Example scenario_start :
  OptionListWalker_init Sample.pformat_wrapped (new_world Sample.store2)
  = (Ok tt, Sample.world2).
Proof. vm_compute. reflexivity. Qed.

Example scenario_activate_enters_edit :
  editing (press_all ["m_select"] Sample.world2) = true /\
  shown (press_all ["m_select"] Sample.world2) = Some ("timeout", Edit "5" 1).
Proof. vm_compute. auto. Qed.

Example scenario_commit_10 :
  editing (press_all ["m_select"; "backspace"; "1"; "0"; "enter"] Sample.world2) = false /\
  value_of (press_all ["m_select"; "backspace"; "1"; "0"; "enter"] Sample.world2) "timeout"
  = Some (VInt 10) /\
  shown (press_all ["m_select"; "backspace"; "1"; "0"; "enter"] Sample.world2)
  = Some ("timeout", Text "option_active_selected" "10").
Proof. vm_compute. auto. Qed.

Example scenario_toggle_verbose :
  editing (press_all ["m_end"; "m_select"] Sample.world2) = false /\
  index (press_all ["m_end"; "m_select"] Sample.world2) = 1 /\
  value_of (press_all ["m_end"; "m_select"] Sample.world2) "verbose" = Some (VBool true) /\
  shown (press_all ["m_end"; "m_select"] Sample.world2)
  = Some ("verbose", Text "option_active_selected" "true").
Proof. vm_compute. auto. Qed.

Example scenario_escape_cancels :
  press_all ["m_select"; "9"; "esc"] Sample.world2
  = press_all ["m_select"; "esc"] Sample.world2 /\
  value_of (press_all ["m_select"; "9"; "esc"] Sample.world2) "timeout" = Some (VInt 5).
Proof. vm_compute. auto. Qed.

(** ** The further properties on the sample panel *)

Example world_hosts_reached :
  press_all ["down"] Sample.world_layout = Corner.world_hosts.
Proof. vm_compute. reflexivity. Qed.

Lemma OptionListWalker_init_start_witness :
  (OptionListWalker_init Sample.pformat_wrapped (new_world ∅)).1 = Raise ValueError /\
  exists w name o,
    OptionListWalker_init Sample.pformat_wrapped (new_world Sample.store2) = (Ok tt, w) /\
    options w = Sample.store2 /\ synced w /\ names_known w /\
    index w = 0 /\ in_range w (index w) /\ editing w = false /\
    max_len (opts w) = Ok (maxlen w) /\
    opts w !! 0%nat = Some name /\ Sample.store2 !! name = Some o /\
    (forall k, is_Some (Sample.store2 !! k) -> str_le name k) /\
    focus_obj w = Some (row Sample.pformat_wrapped o true (maxlen w) false) /\
    help_text w = opt_help o /\
    status_messages w = [] /\ overlays w = [].
Proof.
  split.
  - apply (OptionListWalker_init_start Sample.pformat_wrapped ∅). reflexivity.
  - apply (OptionListWalker_init_start Sample.pformat_wrapped Sample.store2).
    + exact store_wf_store2.
    + intros E. apply (f_equal size) in E. vm_compute in E. discriminate E.
Defined.

Lemma sig_mod_empty_store_witness :
  sig_mod Sample.pformat_wrapped (set_options ∅ Sample.world_editing)
  = (Raise ValueError, set_opts [] (set_options ∅ Sample.world_editing)).
Proof.
  apply (sig_mod_empty_store Sample.pformat_wrapped (set_options ∅ Sample.world_editing)).
  reflexivity.
Defined.

Lemma sig_mod_idempotent_witness :
  exists w1,
    sig_mod Sample.pformat_wrapped Sample.world_editing_shrunk = (Ok tt, w1) /\
    sig_mod Sample.pformat_wrapped w1 = (Ok tt, bump_modified (bump_modified w1)).
Proof.
  apply (sig_mod_idempotent Sample.pformat_wrapped Sample.world_editing_shrunk).
  - exact store_wf_store1.
  - vm_compute. split; congruence.
Defined.

Lemma _get_row_witness :
  (focused (Sample.item Sample.verbose false 7 false (Text "text" "false")) = true
   <-> 1 = index Sample.world2) /\
  exists changed,
    has_changed (options Sample.world2) "verbose" = Ok changed /\
    Text "text" "false"
    = Text (valstyle false changed) (displayval Sample.pformat_wrapped Sample.verbose).
Proof.
  destruct (_get_row Sample.pformat_wrapped Sample.world2 1 false
              (Sample.item Sample.verbose false 7 false (Text "text" "false"))
              Sample.world2) as (_ & _ & Hf & _ & _ & _ & Hc).
  - vm_compute. reflexivity.
  - split; [exact Hf|exact Hc].
Defined.

Lemma sig_mod_aligns_names_witness :
  String.length
    (name_text (item_w (Sample.item Sample.verbose false 7 false (Text "text" "false"))))
  = maxlen (sig_mod Sample.pformat_wrapped Sample.world2).2 /\
  forall k, k ∈ opts (sig_mod Sample.pformat_wrapped Sample.world2).2 ->
            (String.length k <= maxlen (sig_mod Sample.pformat_wrapped Sample.world2).2)%nat.
Proof.
  apply (sig_mod_aligns_names Sample.pformat_wrapped Sample.world2 1 false _
           (sig_mod Sample.pformat_wrapped Sample.world2).2).
  - exact store_wf_store2.
  - vm_compute. reflexivity.
  - vm_compute. reflexivity.
Defined.

Lemma get_next_get_prev_inverse_witness :
  (exists it p it',
     get_next Sample.pformat_wrapped 0 Sample.world2 = (Ok (Some (it, p)), Sample.world2) /\
     get_prev Sample.pformat_wrapped p Sample.world2 = (Ok (Some (it', 0)), Sample.world2) /\
     _get Sample.pformat_wrapped 0 false Sample.world2 = (Ok it', Sample.world2)) /\
  (exists it p it',
     get_prev Sample.pformat_wrapped 1 Sample.world2 = (Ok (Some (it, p)), Sample.world2) /\
     get_next Sample.pformat_wrapped p Sample.world2 = (Ok (Some (it', 1)), Sample.world2) /\
     _get Sample.pformat_wrapped 1 false Sample.world2 = (Ok it', Sample.world2)).
Proof.
  split.
  - apply (get_next_get_prev_inverse Sample.pformat_wrapped Sample.world2 0).
    + exact store_wf_store2.
    + exact names_known_world2.
    + vm_compute. split; congruence.
    + vm_compute. reflexivity.
  - apply (get_next_get_prev_inverse Sample.pformat_wrapped Sample.world2 1).
    + exact store_wf_store2.
    + exact names_known_world2.
    + vm_compute. split; congruence.
    + vm_compute. reflexivity.
Defined.

Lemma start_editing_seeds_buffer_witness :
  exists name o w',
    opts Sample.world2 !! Z.to_nat (index Sample.world2) = Some name /\
    options Sample.world2 !! name = Some o /\
    start_editing Sample.pformat_wrapped Sample.world2 = (Ok tt, w') /\
    get_edit_text w' = (Ok (displayval Sample.pformat_wrapped o), w') /\
    editing w' = true /\ index w' = index Sample.world2 /\
    options w' = options Sample.world2.
Proof.
  apply (start_editing_seeds_buffer Sample.pformat_wrapped Sample.world2).
  - exact store_wf_store2.
  - exact names_known_world2.
  - vm_compute. split; congruence.
Defined.

Lemma escape_cancels_edit_witness :
  same_outside Sample.world_editing_5x (press "esc" Sample.world_editing_5x).2 /\
  editing (press "esc" Sample.world_editing_5x).2 = false /\
  exists name o,
    opts Sample.world_editing_5x !! Z.to_nat (index Sample.world_editing_5x) = Some name /\
    options Sample.world_editing_5x !! name = Some o /\
    press "esc" Sample.world_editing_5x
    = (Ok None, bump_modified (focus_on Sample.pformat_wrapped
                                 (index Sample.world_editing_5x) o
                                 Sample.world_editing_5x)).
Proof.
  destruct (escape_cancels_edit Sample.pformat_wrapped Sample.options_set
              Sample.options_toggler Sample.edit_keypress Sample.listbox_move
              Sample.world_editing_5x eq_refl) as (H1 & H2 & H3).
  split; [exact H1|]. split; [exact H2|]. apply H3.
  - exact store_wf_store2.
  - by_computation.
  - vm_compute. split; congruence.
Defined.

Lemma editing_keys_go_to_edit_widget_witness :
  press "m_select" Sample.world_editing
  = (Ok None,
     set_focus_obj
       (Some (typed_into (Sample.item Sample.timeout true 7 true (Edit "5" 1))
                (Sample.edit_keypress "5" 1 "m_select").1
                (Sample.edit_keypress "5" 1 "m_select").2))
       Sample.world_editing).
Proof.
  apply (editing_keys_go_to_edit_widget Sample.pformat_wrapped Sample.options_set
           Sample.options_toggler Sample.edit_keypress Sample.listbox_move
           Sample.world_editing _ "5" 1%nat "m_select" eq_refl eq_refl eq_refl eq_refl);
    discriminate.
Defined.

Lemma commit_other_error_propagates_witness :
  keypress Sample.pformat_wrapped Corner.broken_set Sample.options_toggler
    Sample.edit_keypress Sample.listbox_move "enter" Sample.world_editing
  = (Raise (KeyError "timeout=5"),
     set_options
       (reply_options
          (commit_reply Corner.broken_set Sample.world_editing
             (Sample.item Sample.timeout true 7 true (Edit "5" 1)) "5"))
       Sample.world_editing).
Proof.
  apply (commit_other_error_propagates Sample.pformat_wrapped Corner.broken_set
           Sample.options_toggler Sample.edit_keypress Sample.listbox_move
           Sample.world_editing _ "5" 1%nat (KeyError "timeout=5")
           eq_refl eq_refl eq_refl eq_refl eq_refl).
  intros msg. discriminate.
Defined.



Lemma navigation_keeps_cursor_on_row_witness :
  same_outside Sample.world2 (press "down" Sample.world2).2 /\
  (on_row Sample.world2 -> on_row (press "down" Sample.world2).2) /\
  (editing Sample.world2 = false -> editing (press "down" Sample.world2).2 = false).
Proof.
  apply (navigation_keeps_cursor_on_row Sample.pformat_wrapped Sample.options_set
           Sample.options_toggler Sample.edit_keypress Sample.listbox_move
           Sample.world2 "down").
  intros [[He _]|[_ Hk]]; discriminate.
Defined.

Lemma set_focus_bounds_witness :
  set_focus Sample.pformat_wrapped 5 Sample.world_editing
  = (Raise IndexError, set_editing false Sample.world_editing) /\
  set_focus Sample.pformat_wrapped 1 Sample.world_editing_shrunk
  = (Raise (KeyError "verbose"), set_editing false Sample.world_editing_shrunk) /\
  exists name o,
    opts Sample.world2 !! Z.to_nat (Z.of_nat (length (opts Sample.world2)) + -1)
    = Some name /\
    options Sample.world2 !! name = Some o /\
    set_focus Sample.pformat_wrapped (-1) Sample.world2
    = (Ok tt, focus_on Sample.pformat_wrapped (-1) o Sample.world2) /\
    index (focus_on Sample.pformat_wrapped (-1) o Sample.world2) = -1 /\
    ~ in_range (focus_on Sample.pformat_wrapped (-1) o Sample.world2) (-1).
Proof.
  split; [|split].
  - apply (set_focus_bounds Sample.pformat_wrapped Sample.world_editing 5).
    vm_compute. intros [_ H]. discriminate H.
  - apply (set_focus_bounds Sample.pformat_wrapped Sample.world_editing_shrunk 1);
      reflexivity.
  - apply (set_focus_bounds Sample.pformat_wrapped Sample.world2 (-1)).
    + exact store_wf_store2.
    + exact names_known_world2.
    + vm_compute. split; congruence.
Defined.

Lemma activate_opens_chooser_witness :
  press "m_select" Sample.world_layout
  = (Ok (Some "m_select"),
     add_overlay (Chooser "console_layout" (Some ["single"; "vertical"; "horizontal"])
                    (live_value Sample.world_layout Sample.console_layout))
       Sample.world_layout).
Proof.
  apply (activate_opens_chooser Sample.pformat_wrapped Sample.options_set
           Sample.options_toggler Sample.edit_keypress Sample.listbox_move
           Sample.world_layout _ eq_refl eq_refl eq_refl).
  - discriminate.
  - reflexivity.
  - reflexivity.
Defined.

Lemma activate_opens_sequence_editor_witness :
  press "m_select" Corner.world_hosts
  = (Ok (Some "m_select"),
     add_overlay (OptionsOverlay "ignore_hosts"
                    (live_value Corner.world_hosts Sample.ignore_hosts) 10)
       Corner.world_hosts).
Proof.
  apply (activate_opens_sequence_editor Sample.pformat_wrapped Sample.options_set
           Sample.options_toggler Sample.edit_keypress Sample.listbox_move
           Corner.world_hosts _ eq_refl eq_refl eq_refl eq_refl eq_refl).
  reflexivity.
Defined.

Lemma current_name_follows_focus_witness :
  exists name,
    opts Sample.world2 !! Z.to_nat 1 = Some name /\
    (set_focus Sample.pformat_wrapped 1;; current_name) Sample.world2
    = (Ok name, (set_focus Sample.pformat_wrapped 1 Sample.world2).2) /\
    ((set_focus Sample.pformat_wrapped 1;; start_editing Sample.pformat_wrapped);;
     current_name) Sample.world2
    = (Ok name,
       ((set_focus Sample.pformat_wrapped 1;; start_editing Sample.pformat_wrapped)
          Sample.world2).2).
Proof.
  apply (current_name_follows_focus Sample.pformat_wrapped Sample.world2 1).
  - exact store_wf_store2.
  - exact names_known_world2.
  - vm_compute. split; congruence.
Defined.

(** The panes at start-up: the option list has the focus, the help
    header is inactive. *)
Definition panes0 : Panes := {| focus_position := 0; header := set_active false |}.

Definition press_pane (key : string) (ps : Panes) (w : World)
  : result (option string) * (Panes * World) :=
  Options_keypress Sample.pformat_wrapped Sample.options_set Sample.options_toggler
    Sample.edit_keypress Sample.listbox_move Corner.listbox_keypress_none
    Corner.help_keypress key ps w.

Lemma next_pane_round_robin_witness :
  focus_position (press_pane "m_next" panes0 Sample.world2).2.1 = 1 - focus_position panes0 /\
  (header (press_pane "m_next" panes0 Sample.world2).2.1 = "heading"
   <-> focus_position (press_pane "m_next" panes0 Sample.world2).2.1 = 1) /\
  (forall w', focus_position
                (press_pane "m_next" (press_pane "m_next" panes0 Sample.world2).2.1 w').2.1
              = focus_position panes0) /\
  ("m_end" <> "m_next" ->
   (press_pane "m_end" panes0 Sample.world2).2.1 = panes0 /\
   (focus_position panes0 = 0 ->
    press_pane "m_end" panes0 Sample.world2
    = ((press "m_end" Sample.world2).1, (panes0, (press "m_end" Sample.world2).2)))).
Proof.
  apply (next_pane_round_robin Sample.pformat_wrapped Sample.options_set
           Sample.options_toggler Sample.edit_keypress Sample.listbox_move
           Corner.listbox_keypress_none Corner.help_keypress panes0 Sample.world2 "m_end").
  left. reflexivity.
Defined.
